(** * Premier-League-predictions: the match simulation of [simulationModel.py]

    The development embeds the two functions of [src/simulationModel.py]:

    - [get_current_season] (lines 8-26), as a function of the clock reading;
    - [predict_match] (lines 28-167): the season fallback, the substitution of
      the all-zero strength record, the expected goals, the Poisson scoreline
      table, the normalisation of the three outcome sums, the ranking of the
      scorelines and the returned record.

    Numbers.  The Python code computes on machine floats.  The scoreline table
    is modelled on the real numbers [R], which is the reading the data model of
    the specification gives ("non-negative reals"); [scipy.stats.poisson.pmf]
    is modelled by its mathematical definition.  The expected-goal formulas are
    written once, over any number type with a product, and are also run on
    IEEE binary64 numbers ([PrimFloat]) for the concrete scenario.

    The reals neither overflow nor underflow.  In the code a product of
    huge coefficients is inf (and inf * 0.0 is nan), and for rates of several
    hundred goals all 64 cells of the table are 0.0, so that the guard of
    line 142 fails.  A statement whose truth depends on the size of the
    table's values therefore assumes [in_range]: coefficients and averages of
    at most [coefficient_bound] and rates of at most [rate_bound], where the
    binary64 computation keeps to normal numbers and follows the real one up
    to rounding.

    What the code imports from [fetchData] and [prosessData] is not part of
    the modelled file: these functions are parameters of the section
    [Orchestration].  The diagnostics that the code prints are left out. *)

From Stdlib Require Import Reals Lra Lia ZArith Bool List String Ascii.
From Stdlib Require Import DecimalString Floats Permutation Sorted.
From Stdlib Require Zfloor.
Import ListNotations.

Set Implicit Arguments.

(** ** Python numbers *)

(** The operations of a Python number that the expected-goal formulas use:
    the product, and the integer literal [0] of the sentinel record. *)
Class PyNumber (num : Type) : Type := {
  py_zero : num;
  py_mul : num -> num -> num
}.

#[export] Instance PyNumber_R : PyNumber R := {
  py_zero := 0%R;
  py_mul := Rmult
}.

#[export] Instance PyNumber_float : PyNumber float := {
  py_zero := 0%float;
  py_mul := PrimFloat.mul
}.

(** ** Data model *)

(** The dictionary returned by [calculate_final_team_stats], with the four
    keys that lines 73 and 96 require. *)
Record TeamStats (num : Type) : Type := mkTeamStats {
  attack_strength_home : num;
  defense_strength_home : num;
  attack_strength_away : num;
  defense_strength_away : num
}.

(** The dictionary returned by [calculate_league_averages]. *)
Record LeagueAverages (num : Type) : Type := mkLeagueAverages {
  avg_home_goals : num;
  avg_away_goals : num
}.

(** The record substituted at lines 76-81, 86-91, 99-104 and 109-114. *)
Definition zero_stats {num : Type} `{PyNumber num} : TeamStats num :=
  {| attack_strength_home := py_zero;
     defense_strength_home := py_zero;
     attack_strength_away := py_zero;
     defense_strength_away := py_zero |}.

(** ** Season resolver (lines 8-26) *)

(** The part of [datetime.now()] that the code reads, and the day. *)
Record datetime : Type := mkDatetime {
  year : Z;
  month : Z;
  day : Z
}.

Definition get_current_season (now : datetime) : Z :=
  let current_year := year now in
  let current_month := month now in
  if (current_month <? 8)%Z then (current_year - 1)%Z else current_year.

(** ** Expected goals (lines 118-120) *)

(** Python evaluates [a * b * c] as [(a * b) * c]. *)
Definition lambda_home {num : Type} `{PyNumber num}
    (home_team_stats away_team_stats : TeamStats num)
    (league_averages : LeagueAverages num) : num :=
  py_mul (py_mul (attack_strength_home home_team_stats)
                 (defense_strength_away away_team_stats))
         (avg_home_goals league_averages).

Definition lambda_away {num : Type} `{PyNumber num}
    (home_team_stats away_team_stats : TeamStats num)
    (league_averages : LeagueAverages num) : num :=
  py_mul (py_mul (attack_strength_away away_team_stats)
                 (defense_strength_home home_team_stats))
         (avg_away_goals league_averages).

(** ** The Poisson table (lines 123-138) *)

Open Scope R_scope.

(** [scipy.stats.poisson.pmf(k, mu)] for a count [k] and a rate [mu >= 0]:
    [mu^k * exp(-mu) / k!].  At [mu = 0] this is [1] for [k = 0] and [0]
    otherwise, as scipy returns.  (For [mu < 0] scipy returns nan, which [R]
    does not have: the statements about the table assume rates [>= 0].
    The real value is positive for every [mu > 0]; scipy's binary64 value is
    0.0 once [exp(-mu)] underflows and nan for a rate that has overflowed to
    inf: the statements that need a positive table assume [in_range].) *)
Definition poisson_pmf (k : nat) (mu : R) : R :=
  mu ^ k * exp (- mu) / INR (fact k).

(** The label [f"{home_goals}-{away_goals}"]. *)
Definition str_of_nat (n : nat) : string :=
  NilZero.string_of_uint (Nat.to_uint n).

Definition scoreline (home_goals away_goals : nat) : string :=
  (str_of_nat home_goals ++ "-" ++ str_of_nat away_goals)%string.

(** A Python [dict] with string keys, in insertion order: [d[k] = v] replaces
    the value of a present key in place and appends an absent key. *)
Definition dict (V : Type) : Type := list (string * V).

Fixpoint dict_set {V : Type} (k : string) (v : V) (d : dict V) : dict V :=
  match d with
  | [] => [(k, v)]
  | (k', v') :: d' =>
      if String.eqb k' k then (k', v) :: d' else (k', v') :: dict_set k v d'
  end.

(** The variables that the nested loop of lines 127-138 updates. *)
Record tally : Type := mkTally {
  home_win_prob : R;
  away_win_prob : R;
  draw_prob : R;
  score_probabilities : dict R
}.

Definition tally_init : tally :=
  {| home_win_prob := 0; away_win_prob := 0; draw_prob := 0;
     score_probabilities := [] |}.

(** One iteration of the inner loop body (lines 129-138). *)
Definition cell_step (lam_home lam_away : R) (home_goals : nat)
    (st : tally) (away_goals : nat) : tally :=
  let prob := poisson_pmf home_goals lam_home * poisson_pmf away_goals lam_away in
  let sp := dict_set (scoreline home_goals away_goals) prob (score_probabilities st) in
  if (away_goals <? home_goals)%nat then
    {| home_win_prob := home_win_prob st + prob;
       away_win_prob := away_win_prob st;
       draw_prob := draw_prob st;
       score_probabilities := sp |}
  else if (home_goals <? away_goals)%nat then
    {| home_win_prob := home_win_prob st;
       away_win_prob := away_win_prob st + prob;
       draw_prob := draw_prob st;
       score_probabilities := sp |}
  else
    {| home_win_prob := home_win_prob st;
       away_win_prob := away_win_prob st;
       draw_prob := draw_prob st + prob;
       score_probabilities := sp |}.

(** [range(max_goals + 1)]. *)
Definition goal_range (max_goals : nat) : list nat := seq 0 (max_goals + 1).

(** The two nested [for] loops of lines 127-128. *)
Definition simulate (max_goals : nat) (lam_home lam_away : R) : tally :=
  fold_left
    (fun st home_goals =>
       fold_left (cell_step lam_home lam_away home_goals)
                 (goal_range max_goals) st)
    (goal_range max_goals) tally_init.

(** ** Normalisation (lines 140-145) *)

(** The only exception the arithmetic of lines 118-167 can raise. *)
Inductive exn : Type := ZeroDivisionError.

Definition raising (A : Type) : Type := (exn + A)%type.

Definition ret {A : Type} (a : A) : raising A := inr a.

Definition bind {A B : Type} (m : raising A) (k : A -> raising B) : raising B :=
  match m with
  | inl e => inl e
  | inr a => k a
  end.

Notation "x <- m ;; k" := (bind m (fun x => k))
  (at level 61, m at next level, right associativity).

(** Python's [x / y]. *)
Definition truediv (x y : R) : raising R :=
  if Req_dec_T y 0 then inl ZeroDivisionError else inr (x / y).

Definition normalise (st : tally) : raising tally :=
  let total_calculated_prob :=
    home_win_prob st + away_win_prob st + draw_prob st in
  if Rlt_dec 0 total_calculated_prob then
    h <- truediv (home_win_prob st) total_calculated_prob ;;
    a <- truediv (away_win_prob st) total_calculated_prob ;;
    d <- truediv (draw_prob st) total_calculated_prob ;;
    ret {| home_win_prob := h; away_win_prob := a; draw_prob := d;
           score_probabilities := score_probabilities st |}
  else ret st.

(** ** Ranking and rounding (lines 147-151) *)

(** [sorted(items, key=lambda item: item[1], reverse=True)]: Python's sort is
    stable, also with [reverse=True].  [insert_desc] puts an item in front of
    a list of later items: behind those with a strictly greater key. *)
Fixpoint insert_desc (x : string * R) (l : list (string * R)) : list (string * R) :=
  match l with
  | [] => [x]
  | y :: l' => if Rlt_dec (snd x) (snd y) then y :: insert_desc x l' else x :: l
  end.

Definition sorted_desc (items : list (string * R)) : list (string * R) :=
  fold_right insert_desc [] items.

(** The nearest integer, ties to the even one. *)
Definition round_half_even (x : R) : Z :=
  let f := Zfloor.Zfloor x in
  let r := x - IZR f in
  if Rlt_dec r (1 / 2) then f
  else if Rlt_dec (1 / 2) r then (f + 1)%Z
  else if Z.even f then f else (f + 1)%Z.

(** [round(x, 2)]. *)
Definition round2 (x : R) : R := IZR (round_half_even (x * 100)) / 100.

(** An element of [top_five_scores]. *)
Record ScoreEntry : Type := mkScoreEntry {
  score : string;
  probability : R
}.

Definition top_five (sorted_scores : list (string * R)) : list ScoreEntry :=
  map (fun item => {| score := fst item; probability := round2 (snd item * 100) |})
      (firstn 5 sorted_scores).

(** ** The returned record (lines 153-167) *)

Record Prediction : Type := mkPrediction {
  home_team_win_probability : R;
  away_team_win_probability : R;
  draw_probability : R;
  predicted_goals_home : R;
  predicted_goals_away : R;
  top_five_scores : list ScoreEntry;
  league_averages : LeagueAverages R;
  home_team_stats : TeamStats R;
  away_team_stats : TeamStats R;
  home_expected_goals : R;
  away_expected_goals : R
}.

Definition max_goals : nat := 7.

(** Lines 118-167: from the two strength records and the league averages to
    the returned dictionary. *)
Definition predict_core (home_stats away_stats : TeamStats R)
    (averages : LeagueAverages R) : raising Prediction :=
  let lam_home := lambda_home home_stats away_stats averages in
  let lam_away := lambda_away home_stats away_stats averages in
  let st := simulate max_goals lam_home lam_away in
  st' <- normalise st ;;
  let sorted_scores := sorted_desc (score_probabilities st) in
  ret {| home_team_win_probability := round2 (home_win_prob st' * 100);
         away_team_win_probability := round2 (away_win_prob st' * 100);
         draw_probability := round2 (draw_prob st' * 100);
         predicted_goals_home := round2 lam_home;
         predicted_goals_away := round2 lam_away;
         top_five_scores := top_five sorted_scores;
         league_averages := averages;
         home_team_stats := home_stats;
         away_team_stats := away_stats;
         home_expected_goals := lam_home;
         away_expected_goals := lam_away |}.

(** ** Season fallback and degraded statistics (lines 39-114) *)

(** What the call of [calculate_final_team_stats] inside [try] can do.
    [StatsDict] is a dictionary whose four values are numbers.  (A dictionary
    that has the four keys and a value that is not a number passes the check
    of lines 74 and 97 and makes line 118 raise [TypeError]; that case, and an
    exception of the three functions called outside [try], are not part of
    this model.) *)
Inductive stats_outcome : Type :=
| StatsRaised
| StatsInvalid
| StatsDict (s : TeamStats R).

(** Lines 70-91 and 93-114. *)
Definition stats_or_zero (o : stats_outcome) : TeamStats R :=
  match o with
  | StatsDict s => s
  | StatsInvalid => zero_stats
  | StatsRaised => zero_stats
  end.

(** What [predict_match] returns: the dictionary with the key ["error"], or
    the prediction. *)
Inductive Response : Type :=
| ErrorRecord (error : string)
| PredictionRecord (p : Prediction).

Definition str_of_Z (z : Z) : string := NilZero.string_of_int (Z.to_int z).

Definition no_data_two_seasons (current_season previous_season : Z) : string :=
  ("No match data found for the league in season " ++ str_of_Z current_season
   ++ " or " ++ str_of_Z previous_season ++ " to calculate averages.")%string.

Definition no_data_one_season (current_season : Z) : string :=
  ("No match data found for the league in season " ++ str_of_Z current_season
   ++ " to calculate averages.")%string.

(** A remote call [retrieve_matches_for_team(league_id, season, team_id=None)]. *)
Record fetch : Type := mkFetch {
  fetch_league : Z;
  fetch_season : Z
}.

Section Orchestration.

(** A match record of the data source. *)
Variable Match : Type.

(** [fetchData.retrieve_matches_for_team] with [team_id=None]: a list, or a
    false value. *)
Variable retrieve_matches_for_team : Z -> Z -> option (list Match).
Variable calculate_league_averages : list Match -> LeagueAverages R.
Variable filter_matches_by_team_id : Z -> list Match -> list Match.
(** [prosessData.calculate_final_team_stats(season, league_id, team_id,
    league_averages, team_matches=...)]. *)
Variable calculate_final_team_stats :
  Z -> Z -> Z -> LeagueAverages R -> list Match -> stats_outcome.

(** [retrieve_matches_for_team(...) or []]. *)
Definition or_empty (r : option (list Match)) : list Match :=
  match r with
  | Some (x :: l) => x :: l
  | _ => []
  end.

(** [if all_matches:] *)
Definition truthy (l : list Match) : bool :=
  match l with
  | [] => false
  | _ :: _ => true
  end.

(** Lines 63-167, once the season and its matches are settled. *)
Definition predict_with (current_season : Z) (all_matches : list Match)
    (averages : LeagueAverages R)
    (home_team_id away_team_id league_id : Z) : raising Response :=
  let home_team_matches := filter_matches_by_team_id home_team_id all_matches in
  let away_team_matches := filter_matches_by_team_id away_team_id all_matches in
  let home_stats :=
    stats_or_zero (calculate_final_team_stats current_season league_id
                     home_team_id averages home_team_matches) in
  let away_stats :=
    stats_or_zero (calculate_final_team_stats current_season league_id
                     away_team_id averages away_team_matches) in
  p <- predict_core home_stats away_stats averages ;;
  ret (PredictionRecord p).

(** Lines 60-61 and what follows. *)
Definition predict_checked (current_season : Z) (all_matches : list Match)
    (averages : LeagueAverages R)
    (home_team_id away_team_id league_id : Z) : raising Response :=
  if negb (truthy all_matches) then
    ret (ErrorRecord (no_data_one_season current_season))
  else
    predict_with current_season all_matches averages
                 home_team_id away_team_id league_id.

(** [predict_match(home_team_id, away_team_id, league_id)], with the clock
    reading as an argument; the first component lists, branch by branch, the
    calls of [retrieve_matches_for_team] that lines 42 and 51 make, in order
    (it is written beside each branch, and says nothing about calls made
    inside the imported functions). *)
Definition predict_match (now : datetime)
    (home_team_id away_team_id league_id : Z) : list fetch * raising Response :=
  let current_season := get_current_season now in
  let all_matches_current_season :=
    or_empty (retrieve_matches_for_team league_id current_season) in
  let averages := calculate_league_averages all_matches_current_season in
  if Req_dec_T (avg_home_goals averages) 0 then
    if Req_dec_T (avg_away_goals averages) 0 then
      let previous_season := (current_season - 1)%Z in
      let all_matches_previous_season :=
        or_empty (retrieve_matches_for_team league_id previous_season) in
      let calls := [mkFetch league_id current_season;
                    mkFetch league_id previous_season] in
      if truthy all_matches_previous_season then
        (calls,
         predict_checked previous_season all_matches_previous_season
           (calculate_league_averages all_matches_previous_season)
           home_team_id away_team_id league_id)
      else
        (calls,
         ret (ErrorRecord (no_data_two_seasons current_season previous_season)))
    else
      ([mkFetch league_id current_season],
       predict_checked current_season all_matches_current_season averages
         home_team_id away_team_id league_id)
  else
    ([mkFetch league_id current_season],
     predict_checked current_season all_matches_current_season averages
       home_team_id away_team_id league_id).

End Orchestration.

(** ** The table as sums

    The definitions of this part are not in the code: they name what the loop
    computes, so that the statements below can speak about it. *)

Definition Rsum (l : list R) : R := fold_right Rplus 0 l.

(** The probability that lines 129 gives to the cell [(h, a)]. *)
Definition joint (lam_home lam_away : R) (h a : nat) : R :=
  poisson_pmf h lam_home * poisson_pmf a lam_away.

(** The cells in the order in which the nested loop visits them. *)
Definition cells (n : nat) : list (nat * nat) :=
  flat_map (fun h => map (pair h) (goal_range n)) (goal_range n).

(** The loop body on a cell given as a pair. *)
Definition cell_step_pair (lam_home lam_away : R) (st : tally) (c : nat * nat) : tally :=
  cell_step lam_home lam_away (fst c) st (snd c).

(** The scoreline labels with their probabilities, in enumeration order:
    ascending home goals, then ascending away goals. *)
Definition scoreline_table (n : nat) (lam_home lam_away : R) : list (string * R) :=
  map (fun c => (scoreline (fst c) (snd c), joint lam_home lam_away (fst c) (snd c)))
      (cells n).

(** The sum of the cells of the table that [keep] selects. *)
Definition sum_where (keep : nat -> nat -> bool) (n : nat) (lam_home lam_away : R) : R :=
  Rsum (map (fun h =>
               Rsum (map (fun a => if keep h a then joint lam_home lam_away h a else 0)
                         (goal_range n)))
            (goal_range n)).

Definition is_home_win (h a : nat) : bool := (a <? h)%nat.
Definition is_away_win (h a : nat) : bool := (h <? a)%nat.
Definition is_draw (h a : nat) : bool := (h =? a)%nat.

(** All the strings of a list are different. *)
Fixpoint distinct (l : list string) : bool :=
  match l with
  | [] => true
  | x :: l' => negb (existsb (String.eqb x) l') && distinct l'
  end.

(** A strength record of the data model: four non-negative coefficients. *)
Definition valid_stats (s : TeamStats R) : Prop :=
  0 <= attack_strength_home s /\ 0 <= defense_strength_home s /\
  0 <= attack_strength_away s /\ 0 <= defense_strength_away s.

Definition valid_averages (la : LeagueAverages R) : Prop :=
  0 <= avg_home_goals la /\ 0 <= avg_away_goals la.

(** ** The concrete scenario

    League averages 1.5 and 1.2; a home record and an away record.  Once on
    the real numbers and once on binary64 numbers, where each decimal literal
    stands for the nearest binary64 number, as in Python. *)

Definition scenario_averages : LeagueAverages R :=
  {| avg_home_goals := 1.5; avg_away_goals := 1.2 |}.

Definition scenario_home : TeamStats R :=
  {| attack_strength_home := 1.2; defense_strength_home := 1.0;
     attack_strength_away := 1.0; defense_strength_away := 1.0 |}.

Definition scenario_away : TeamStats R :=
  {| attack_strength_home := 1.0; defense_strength_home := 1.0;
     attack_strength_away := 0.8; defense_strength_away := 0.9 |}.

#[local] Set Warnings "-inexact-float".

Definition scenario_averages_b64 : LeagueAverages float :=
  {| avg_home_goals := 1.5%float; avg_away_goals := 1.2%float |}.

Definition scenario_home_b64 : TeamStats float :=
  {| attack_strength_home := 1.2%float; defense_strength_home := 1.0%float;
     attack_strength_away := 1.0%float; defense_strength_away := 1.0%float |}.

Definition scenario_away_b64 : TeamStats float :=
  {| attack_strength_home := 1.0%float; defense_strength_home := 1.0%float;
     attack_strength_away := 0.8%float; defense_strength_away := 0.9%float |}.

Definition b64_1_62 : float := 1.62%float.
Definition b64_0_96 : float := 0.96%float.

#[local] Set Warnings "+inexact-float".

(** ** Ranking vocabulary *)

(** [x] may stand before [y] in a list sorted by probability, descending. *)
Definition prob_ge (x y : string * R) : Prop := snd y <= snd x.

(** The item has exactly the probability [v]. *)
Definition has_probability (v : R) (item : string * R) : bool :=
  if Req_dec_T (snd item) v then true else false.

(** How line 149 makes an entry of the returned list from a ranked item. *)
Definition entry_of (item : string * R) : ScoreEntry :=
  {| score := fst item; probability := round2 (snd item * 100) |}.

(** Python's [d[k]] on a present key, [None] on an absent one. *)
Fixpoint dict_get {V : Type} (k : string) (d : dict V) : option V :=
  match d with
  | [] => None
  | (k', v) :: d' => if String.eqb k' k then Some v else dict_get k d'
  end.

(** The prediction when neither side is expected to score. *)
Definition goalless_prediction (hs aws : TeamStats R) (la : LeagueAverages R) : Prediction :=
  {| home_team_win_probability := 0;
     away_team_win_probability := 0;
     draw_probability := 100;
     predicted_goals_home := 0;
     predicted_goals_away := 0;
     top_five_scores :=
       [ {| score := "0-0"; probability := 100 |};
         {| score := "0-1"; probability := 0 |};
         {| score := "0-2"; probability := 0 |};
         {| score := "0-3"; probability := 0 |};
         {| score := "0-4"; probability := 0 |} ];
     league_averages := la;
     home_team_stats := hs;
     away_team_stats := aws;
     home_expected_goals := 0;
     away_expected_goals := 0 |}.

(** ** Exchanging the two sides *)

Definition swap_averages (la : LeagueAverages R) : LeagueAverages R :=
  {| avg_home_goals := avg_away_goals la; avg_away_goals := avg_home_goals la |}.

(** The record with its home coefficients and its away coefficients
    exchanged. *)
Definition mirror (s : TeamStats R) : TeamStats R :=
  {| attack_strength_home := attack_strength_away s;
     defense_strength_home := defense_strength_away s;
     attack_strength_away := attack_strength_home s;
     defense_strength_away := defense_strength_home s |}.

(** The record does not tell home from away. *)
Definition venue_free (s : TeamStats R) : Prop :=
  attack_strength_home s = attack_strength_away s /\
  defense_strength_home s = defense_strength_away s.

(** [s] with another home attack coefficient, the rest unchanged. *)
Definition with_attack_home (x : R) (s : TeamStats R) : TeamStats R :=
  {| attack_strength_home := x;
     defense_strength_home := defense_strength_home s;
     attack_strength_away := attack_strength_away s;
     defense_strength_away := defense_strength_away s |}.

(** A home side that has scored at home only, against an away side that has
    not scored at all; one goal per side on league average. *)
Definition lopsided_home : TeamStats R :=
  {| attack_strength_home := 1; defense_strength_home := 1;
     attack_strength_away := 0; defense_strength_away := 1 |}.

Definition lopsided_away : TeamStats R :=
  {| attack_strength_home := 0; defense_strength_home := 1;
     attack_strength_away := 0; defense_strength_away := 1 |}.

Definition unit_averages : LeagueAverages R :=
  {| avg_home_goals := 1; avg_away_goals := 1 |}.

(** ** Vocabulary of the further properties *)

(** [s] with another away attack coefficient, the rest unchanged. *)
Definition with_attack_away (x : R) (s : TeamStats R) : TeamStats R :=
  {| attack_strength_home := attack_strength_home s;
     defense_strength_home := defense_strength_home s;
     attack_strength_away := x;
     defense_strength_away := defense_strength_away s |}.

(** A percentage. *)
Definition percent (x : R) : Prop := 0 <= x <= 100.

(** [d1] is not later than [d2]. *)
Definition date_le (d1 d2 : datetime) : Prop :=
  (year d1 < year d2)%Z \/
  (year d1 = year d2 /\
   ((month d1 < month d2)%Z \/ (month d1 = month d2 /\ (day d1 <= day d2)%Z))).

(** The partial sums of the exponential series. *)
Definition exp_partial (x : R) (n : nat) : R :=
  sum_f_R0 (fun i => / INR (fact i) * x ^ i) n.

(** ** The range in which binary64 follows the reals

    With coefficients and league averages of at most [coefficient_bound] no
    product of lines 118-120 overflows (three factors give at most 1e18).
    With rates of at most [rate_bound] the cell "0-0" of the table is at
    least [exp(-600)], about 1e-261, a normal binary64 number, so the total of
    line 140 is positive in the code as it is on the reals. *)

Definition coefficient_bound : R := 1e6.

Definition rate_bound : R := 300.

Definition moderate_stats (s : TeamStats R) : Prop :=
  0 <= attack_strength_home s <= coefficient_bound /\
  0 <= defense_strength_home s <= coefficient_bound /\
  0 <= attack_strength_away s <= coefficient_bound /\
  0 <= defense_strength_away s <= coefficient_bound.

Definition moderate_averages (la : LeagueAverages R) : Prop :=
  0 <= avg_home_goals la <= coefficient_bound /\
  0 <= avg_away_goals la <= coefficient_bound.

Definition in_range (hs aws : TeamStats R) (la : LeagueAverages R) : Prop :=
  moderate_stats hs /\ moderate_stats aws /\ moderate_averages la /\
  lambda_home hs aws la <= rate_bound /\
  lambda_away hs aws la <= rate_bound.

(** Two home records on binary64 numbers that differ in the home attack
    coefficient by one unit in the last place, an away record and league
    averages. *)

#[local] Set Warnings "-inexact-float".

Definition close_home_b64 : TeamStats float :=
  {| attack_strength_home := 1.9%float; defense_strength_home := 1.0%float;
     attack_strength_away := 1.0%float; defense_strength_away := 1.0%float |}.

Definition closer_home_b64 : TeamStats float :=
  {| attack_strength_home := 1.9000000000000001%float;
     defense_strength_home := 1.0%float;
     attack_strength_away := 1.0%float; defense_strength_away := 1.0%float |}.

Definition close_away_b64 : TeamStats float :=
  {| attack_strength_home := 1.0%float; defense_strength_home := 1.0%float;
     attack_strength_away := 1.0%float; defense_strength_away := 0.9%float |}.

Definition close_averages_b64 : LeagueAverages float :=
  {| avg_home_goals := 1.2%float; avg_away_goals := 1.2%float |}.

#[local] Set Warnings "+inexact-float".

(** Closes [in_range] and its parts on concrete records. *)
Ltac in_range_by_computation :=
  unfold in_range, moderate_stats, moderate_averages, coefficient_bound, rate_bound,
         lambda_home, lambda_away;
  simpl; repeat split; lra.

(** * Properties *)

(** ** The season resolver *)

Lemma get_current_season_before_august (now : datetime) :
  (month now < 8)%Z -> get_current_season now = (year now - 1)%Z.
Proof.
  intros Hm. unfold get_current_season.
  destruct (Z.ltb_spec (month now) 8) as [_ | Hge]; [reflexivity | lia].
Qed.

Lemma get_current_season_from_august (now : datetime) :
  (8 <= month now)%Z -> get_current_season now = year now.
Proof.
  intros Hm. unfold get_current_season.
  destruct (Z.ltb_spec (month now) 8) as [Hlt | _]; [lia | reflexivity].
Qed.

(** C8: a date in January..July resolves to the previous calendar year, a date
    in August..December to its own year; 31 July of [Y] gives [Y - 1] and
    1 August of [Y] gives [Y]. *)
Theorem season_rollover_on_august_first (now : datetime) :
  ((1 <= month now <= 7)%Z -> get_current_season now = (year now - 1)%Z) /\
  ((8 <= month now <= 12)%Z -> get_current_season now = year now) /\
  (forall Y : Z,
      get_current_season (mkDatetime Y 7 31) = (Y - 1)%Z /\
      get_current_season (mkDatetime Y 8 1) = Y).
Proof.
  split; [| split].
  - intros H. apply get_current_season_before_august. lia.
  - intros H. apply get_current_season_from_august. lia.
  - intros Y. split.
    + apply get_current_season_before_august. simpl. lia.
    + apply get_current_season_from_august. simpl. lia.
Qed.

Lemma season_rollover_on_august_first_witness :
  get_current_season (mkDatetime 2025 3 10) = 2024%Z /\
  get_current_season (mkDatetime 2025 8 15) = 2025%Z /\
  get_current_season (mkDatetime 2025 7 31) = 2024%Z /\
  get_current_season (mkDatetime 2025 8 1) = 2025%Z.
Proof.
  destruct (season_rollover_on_august_first (mkDatetime 2025 3 10))
    as [Hbefore [_ Hdates]].
  destruct (season_rollover_on_august_first (mkDatetime 2025 8 15))
    as [_ [Hfrom _]].
  split; [| split; [| exact (Hdates 2025%Z)]].
  - apply Hbefore. simpl. lia.
  - apply Hfrom. simpl. lia.
Defined.

(** ** Division and the normalisation guard *)

Lemma truediv_nonzero (x y : R) : y <> 0 -> truediv x y = inr (x / y).
Proof.
  intros Hy. unfold truediv. destruct (Req_dec_T y 0); [contradiction | reflexivity].
Qed.

Lemma normalise_pos (st : tally) :
  let total := home_win_prob st + away_win_prob st + draw_prob st in
  0 < total ->
  normalise st =
  inr {| home_win_prob := home_win_prob st / total;
         away_win_prob := away_win_prob st / total;
         draw_prob := draw_prob st / total;
         score_probabilities := score_probabilities st |}.
Proof.
  intros total Hpos. unfold normalise. fold total.
  destruct (Rlt_dec 0 total) as [_ | Hn]; [| contradiction].
  assert (Hnz : total <> 0) by lra.
  rewrite !(truediv_nonzero _ Hnz). reflexivity.
Qed.

Lemma normalise_skip (st : tally) :
  ~ 0 < home_win_prob st + away_win_prob st + draw_prob st ->
  normalise st = inr st.
Proof.
  intros Hn. unfold normalise.
  destruct (Rlt_dec 0 _) as [Hp | _]; [contradiction | reflexivity].
Qed.

Lemma normalise_returns (st : tally) : exists st', normalise st = inr st'.
Proof.
  destruct (Rlt_dec 0 (home_win_prob st + away_win_prob st + draw_prob st)) as [Hp | Hn].
  - eexists. apply normalise_pos. exact Hp.
  - exists st. apply normalise_skip. exact Hn.
Qed.

(** What [predict_core] returns once the normalisation has returned. *)
Lemma predict_core_unfold (hs aws : TeamStats R) (la : LeagueAverages R) (st' : tally) :
  normalise (simulate max_goals (lambda_home hs aws la) (lambda_away hs aws la)) = inr st' ->
  predict_core hs aws la =
  inr {| home_team_win_probability := round2 (home_win_prob st' * 100);
         away_team_win_probability := round2 (away_win_prob st' * 100);
         draw_probability := round2 (draw_prob st' * 100);
         predicted_goals_home := round2 (lambda_home hs aws la);
         predicted_goals_away := round2 (lambda_away hs aws la);
         top_five_scores :=
           top_five (sorted_desc (score_probabilities
             (simulate max_goals (lambda_home hs aws la) (lambda_away hs aws la))));
         league_averages := la;
         home_team_stats := hs;
         away_team_stats := aws;
         home_expected_goals := lambda_home hs aws la;
         away_expected_goals := lambda_away hs aws la |}.
Proof.
  intros Hn. unfold predict_core. rewrite Hn. reflexivity.
Qed.

Lemma predict_core_returns (hs aws : TeamStats R) (la : LeagueAverages R) :
  exists p, predict_core hs aws la = inr p.
Proof.
  destruct (normalise_returns
              (simulate max_goals (lambda_home hs aws la) (lambda_away hs aws la)))
    as [st' Hst'].
  eexists. apply (predict_core_unfold _ _ _ Hst').
Qed.

(** ** Sums *)

Lemma Rsum_app (l1 l2 : list R) : Rsum (l1 ++ l2) = Rsum l1 + Rsum l2.
Proof.
  induction l1 as [| x l1 IH]; simpl.
  - lra.
  - rewrite IH. lra.
Qed.

Lemma Rsum_flat_map {A B : Type} (f : B -> R) (g : A -> list B) (l : list A) :
  Rsum (map f (flat_map g l)) = Rsum (map (fun x => Rsum (map f (g x))) l).
Proof.
  induction l as [| x l IH]; simpl.
  - reflexivity.
  - rewrite map_app, Rsum_app, IH. reflexivity.
Qed.

Lemma Rsum_ext {A : Type} (f g : A -> R) (l : list A) :
  (forall x, In x l -> f x = g x) -> Rsum (map f l) = Rsum (map g l).
Proof.
  induction l as [| x l IH]; simpl; intros Hfg.
  - reflexivity.
  - rewrite (Hfg x) by (left; reflexivity).
    rewrite IH by (intros y Hy; apply Hfg; right; exact Hy). reflexivity.
Qed.

Lemma Rsum_le {A : Type} (f g : A -> R) (l : list A) :
  (forall x, In x l -> f x <= g x) -> Rsum (map f l) <= Rsum (map g l).
Proof.
  induction l as [| x l IH]; simpl; intros Hfg.
  - lra.
  - assert (f x <= g x) by (apply Hfg; left; reflexivity).
    assert (Rsum (map f l) <= Rsum (map g l))
      by (apply IH; intros y Hy; apply Hfg; right; exact Hy).
    lra.
Qed.

Lemma Rsum_nonneg {A : Type} (f : A -> R) (l : list A) :
  (forall x, In x l -> 0 <= f x) -> 0 <= Rsum (map f l).
Proof.
  induction l as [| x l IH]; simpl; intros Hf.
  - lra.
  - assert (0 <= f x) by (apply Hf; left; reflexivity).
    assert (0 <= Rsum (map f l)) by (apply IH; intros y Hy; apply Hf; right; exact Hy).
    lra.
Qed.

Lemma Rsum_plus {A : Type} (f g : A -> R) (l : list A) :
  Rsum (map (fun x => f x + g x) l) = Rsum (map f l) + Rsum (map g l).
Proof.
  induction l as [| x l IH]; simpl.
  - lra.
  - rewrite IH. lra.
Qed.

Lemma Rsum_scal_l {A : Type} (c : R) (f : A -> R) (l : list A) :
  Rsum (map (fun x => c * f x) l) = c * Rsum (map f l).
Proof.
  induction l as [| x l IH]; simpl.
  - lra.
  - rewrite IH. lra.
Qed.

Lemma Rsum_scal_r {A : Type} (c : R) (f : A -> R) (l : list A) :
  Rsum (map (fun x => f x * c) l) = Rsum (map f l) * c.
Proof.
  induction l as [| x l IH]; simpl.
  - lra.
  - rewrite IH. lra.
Qed.

Lemma Rsum_zero {A : Type} (l : list A) : Rsum (map (fun _ => 0) l) = 0.
Proof.
  induction l as [| x l IH]; simpl.
  - reflexivity.
  - rewrite IH. lra.
Qed.

(** The order of two nested sums can be exchanged. *)
Lemma Rsum_swap {A B : Type} (f : A -> B -> R) (l1 : list A) (l2 : list B) :
  Rsum (map (fun x => Rsum (map (fun y => f x y) l2)) l1) =
  Rsum (map (fun y => Rsum (map (fun x => f x y) l1)) l2).
Proof.
  induction l1 as [| x l1 IH]; simpl.
  - rewrite Rsum_zero. reflexivity.
  - rewrite IH, <- Rsum_plus. reflexivity.
Qed.

(** ** The loop computes the sums *)

Lemma fold_left_flat_map {A B S : Type} (f : S -> B -> S) (g : A -> list B)
    (l : list A) (s : S) :
  fold_left f (flat_map g l) s = fold_left (fun s x => fold_left f (g x) s) l s.
Proof.
  revert s. induction l as [| x l IH]; intros s; simpl.
  - reflexivity.
  - rewrite fold_left_app. apply IH.
Qed.

Lemma fold_left_map {A B S : Type} (f : S -> B -> S) (g : A -> B)
    (l : list A) (s : S) :
  fold_left f (map g l) s = fold_left (fun s x => f s (g x)) l s.
Proof.
  revert s. induction l as [| x l IH]; intros s; simpl.
  - reflexivity.
  - apply IH.
Qed.

Lemma fold_left_pointwise {A S : Type} (f g : S -> A -> S) (l : list A) (s : S) :
  (forall s x, f s x = g s x) -> fold_left f l s = fold_left g l s.
Proof.
  intros Hfg. revert s. induction l as [| x l IH]; intros s; simpl.
  - reflexivity.
  - rewrite Hfg. apply IH.
Qed.

Lemma simulate_cells (n : nat) (lh la : R) :
  simulate n lh la = fold_left (cell_step_pair lh la) (cells n) tally_init.
Proof.
  unfold simulate, cells. rewrite fold_left_flat_map.
  apply fold_left_pointwise. intros st h. rewrite fold_left_map. reflexivity.
Qed.

Lemma cells_sum (f : nat -> nat -> R) (n : nat) :
  Rsum (map (fun c => f (fst c) (snd c)) (cells n)) =
  Rsum (map (fun h => Rsum (map (fun a => f h a) (goal_range n))) (goal_range n)).
Proof.
  unfold cells. rewrite Rsum_flat_map. apply Rsum_ext.
  intros h _. rewrite map_map. reflexivity.
Qed.

Lemma fold_cells_home (lh la : R) (cs : list (nat * nat)) (st : tally) :
  home_win_prob (fold_left (cell_step_pair lh la) cs st) =
  home_win_prob st +
  Rsum (map (fun c => if is_home_win (fst c) (snd c)
                      then joint lh la (fst c) (snd c) else 0) cs).
Proof.
  revert st. induction cs as [| [h a] cs IH]; intros st; simpl.
  - lra.
  - rewrite IH. unfold cell_step_pair, cell_step, is_home_win, joint. simpl.
    destruct (a <? h)%nat; simpl; [lra |].
    destruct (h <? a)%nat; simpl; lra.
Qed.

Lemma fold_cells_away (lh la : R) (cs : list (nat * nat)) (st : tally) :
  away_win_prob (fold_left (cell_step_pair lh la) cs st) =
  away_win_prob st +
  Rsum (map (fun c => if is_away_win (fst c) (snd c)
                      then joint lh la (fst c) (snd c) else 0) cs).
Proof.
  revert st. induction cs as [| [h a] cs IH]; intros st; simpl.
  - lra.
  - rewrite IH. unfold cell_step_pair, cell_step, is_away_win, joint. simpl.
    destruct (Nat.ltb_spec a h) as [Hah | Hah]; simpl.
    + destruct (Nat.ltb_spec h a) as [Hha | _]; [lia | lra].
    + destruct (h <? a)%nat; simpl; lra.
Qed.

Lemma fold_cells_draw (lh la : R) (cs : list (nat * nat)) (st : tally) :
  draw_prob (fold_left (cell_step_pair lh la) cs st) =
  draw_prob st +
  Rsum (map (fun c => if is_draw (fst c) (snd c)
                      then joint lh la (fst c) (snd c) else 0) cs).
Proof.
  revert st. induction cs as [| [h a] cs IH]; intros st; simpl.
  - lra.
  - rewrite IH. unfold cell_step_pair, cell_step, is_draw, joint. simpl.
    destruct (Nat.ltb_spec a h) as [Hah | Hah]; simpl.
    + destruct (Nat.eqb_spec h a) as [Heq | _]; [lia | lra].
    + destruct (Nat.ltb_spec h a) as [Hha | Hha]; simpl.
      * destruct (Nat.eqb_spec h a) as [Heq | _]; [lia | lra].
      * destruct (Nat.eqb_spec h a) as [_ | Hne]; [lra | lia].
Qed.

Lemma simulate_home (n : nat) (lh la : R) :
  home_win_prob (simulate n lh la) = sum_where is_home_win n lh la.
Proof.
  rewrite simulate_cells, fold_cells_home. simpl.
  rewrite (cells_sum (fun h a => if is_home_win h a then joint lh la h a else 0)).
  unfold sum_where. lra.
Qed.

Lemma simulate_away (n : nat) (lh la : R) :
  away_win_prob (simulate n lh la) = sum_where is_away_win n lh la.
Proof.
  rewrite simulate_cells, fold_cells_away. simpl.
  rewrite (cells_sum (fun h a => if is_away_win h a then joint lh la h a else 0)).
  unfold sum_where. lra.
Qed.

Lemma simulate_draw (n : nat) (lh la : R) :
  draw_prob (simulate n lh la) = sum_where is_draw n lh la.
Proof.
  rewrite simulate_cells, fold_cells_draw. simpl.
  rewrite (cells_sum (fun h a => if is_draw h a then joint lh la h a else 0)).
  unfold sum_where. lra.
Qed.

(** ** The dictionary of scorelines *)

Lemma dict_set_fresh {V : Type} (k : string) (v : V) (d : dict V) :
  ~ In k (map fst d) -> dict_set k v d = d ++ [(k, v)].
Proof.
  induction d as [| [k' v'] d IH]; simpl; intros Hk.
  - reflexivity.
  - destruct (String.eqb_spec k' k) as [Heq | Hne].
    + exfalso. apply Hk. left. exact Heq.
    + rewrite IH; [reflexivity |]. intros Hin. apply Hk. right. exact Hin.
Qed.

Lemma dict_fill {V : Type} (kvs d : dict V) :
  NoDup (map fst (d ++ kvs)) ->
  fold_left (fun d kv => dict_set (fst kv) (snd kv) d) kvs d = d ++ kvs.
Proof.
  revert d. induction kvs as [| [k v] kvs IH]; intros d Hnd; simpl.
  - rewrite app_nil_r. reflexivity.
  - assert (Hfresh : ~ In k (map fst d)).
    { rewrite map_app in Hnd. simpl in Hnd.
      apply NoDup_remove_2 in Hnd. intros Hin. apply Hnd.
      apply in_or_app. left. exact Hin. }
    rewrite (dict_set_fresh k v d Hfresh).
    rewrite IH.
    + rewrite <- app_assoc. reflexivity.
    + rewrite <- app_assoc. exact Hnd.
Qed.

Lemma distinct_NoDup (l : list string) : distinct l = true -> NoDup l.
Proof.
  induction l as [| x l IH]; simpl; intros Hd.
  - constructor.
  - apply andb_true_iff in Hd. destruct Hd as [Hx Hl].
    constructor; [| apply IH; exact Hl].
    intros Hin. apply negb_true_iff in Hx.
    assert (Hex : existsb (String.eqb x) l = true).
    { apply existsb_exists. exists x. split; [exact Hin | apply String.eqb_refl]. }
    congruence.
Qed.

Lemma fold_cells_scores (lh la : R) (cs : list (nat * nat)) (st : tally) :
  score_probabilities (fold_left (cell_step_pair lh la) cs st) =
  fold_left (fun d kv => dict_set (fst kv) (snd kv) d)
    (map (fun c => (scoreline (fst c) (snd c), joint lh la (fst c) (snd c))) cs)
    (score_probabilities st).
Proof.
  revert st. induction cs as [| [h a] cs IH]; intros st; simpl.
  - reflexivity.
  - rewrite IH. f_equal.
    unfold cell_step_pair, cell_step, joint. simpl.
    destruct (a <? h)%nat; simpl; [reflexivity |].
    destruct (h <? a)%nat; reflexivity.
Qed.

(** The 64 labels ["0-0"], ["0-1"], ..., ["7-7"] are pairwise different. *)
Lemma scorelines_distinct :
  NoDup (map (fun c => scoreline (fst c) (snd c)) (cells max_goals)).
Proof. apply distinct_NoDup. vm_compute. reflexivity. Qed.

(** After the loop the dictionary holds the 64 cells in enumeration order. *)
Lemma simulate_scores (lh la : R) :
  score_probabilities (simulate max_goals lh la) = scoreline_table max_goals lh la.
Proof.
  rewrite simulate_cells, fold_cells_scores. simpl score_probabilities.
  rewrite dict_fill; [reflexivity |].
  rewrite app_nil_l. unfold scoreline_table. rewrite map_map. simpl fst.
  exact scorelines_distinct.
Qed.

(** ** Expected goals *)

Lemma lambda_home_R (hs aws : TeamStats R) (la : LeagueAverages R) :
  lambda_home hs aws la =
  attack_strength_home hs * defense_strength_away aws * avg_home_goals la.
Proof. reflexivity. Qed.

Lemma lambda_away_R (hs aws : TeamStats R) (la : LeagueAverages R) :
  lambda_away hs aws la =
  attack_strength_away aws * defense_strength_home hs * avg_away_goals la.
Proof. reflexivity. Qed.

(** C1: the expected goals are the two products of the formulas, they are
    what the prediction returns as raw expected goals, and on the concrete
    scenario they are 1.62 and 0.96, on the reals and on binary64 numbers. *)
Theorem expected_goals_formula :
  (forall (hs aws : TeamStats R) (la : LeagueAverages R),
      lambda_home hs aws la =
        attack_strength_home hs * defense_strength_away aws * avg_home_goals la /\
      lambda_away hs aws la =
        attack_strength_away aws * defense_strength_home hs * avg_away_goals la /\
      exists p,
        predict_core hs aws la = inr p /\
        home_expected_goals p = lambda_home hs aws la /\
        away_expected_goals p = lambda_away hs aws la) /\
  (lambda_home scenario_home scenario_away scenario_averages = 1.62 /\
   lambda_away scenario_home scenario_away scenario_averages = 0.96) /\
  (PrimFloat.eqb
     (lambda_home scenario_home_b64 scenario_away_b64 scenario_averages_b64)
     b64_1_62 = true /\
   PrimFloat.eqb
     (lambda_away scenario_home_b64 scenario_away_b64 scenario_averages_b64)
     b64_0_96 = true).
Proof.
  split; [| split].
  - intros hs aws la. split; [reflexivity | split; [reflexivity |]].
    destruct (normalise_returns
                (simulate max_goals (lambda_home hs aws la) (lambda_away hs aws la)))
      as [st' Hst'].
    eexists. split; [apply (predict_core_unfold _ _ _ Hst') |].
    split; reflexivity.
  - rewrite lambda_home_R, lambda_away_R. simpl. split; lra.
  - split; vm_compute; reflexivity.
Qed.

(** ** The Poisson probabilities *)

Lemma poisson_pmf_nonneg (k : nat) (mu : R) : 0 <= mu -> 0 <= poisson_pmf k mu.
Proof.
  intros Hmu. unfold poisson_pmf.
  apply Rmult_le_pos; [apply Rmult_le_pos |].
  - apply pow_le. exact Hmu.
  - left. apply exp_pos.
  - left. apply Rinv_0_lt_compat. apply INR_fact_lt_0.
Qed.

Lemma poisson_pmf_0 (mu : R) : poisson_pmf 0 mu = exp (- mu).
Proof. unfold poisson_pmf. simpl. field. Qed.

Lemma poisson_pmf_rate_0_at_0 : poisson_pmf 0 0 = 1.
Proof. rewrite poisson_pmf_0, Ropp_0. apply exp_0. Qed.

Lemma poisson_pmf_rate_0_at_S (k : nat) : poisson_pmf (S k) 0 = 0.
Proof.
  unfold poisson_pmf. rewrite pow_i by lia. unfold Rdiv. rewrite !Rmult_0_l. reflexivity.
Qed.

Lemma joint_nonneg (lh la : R) (h a : nat) :
  0 <= lh -> 0 <= la -> 0 <= joint lh la h a.
Proof.
  intros Hh Ha. unfold joint.
  apply Rmult_le_pos; apply poisson_pmf_nonneg; assumption.
Qed.

Lemma joint_0_0_pos (lh la : R) : 0 < joint lh la 0 0.
Proof.
  unfold joint. rewrite !poisson_pmf_0. apply Rmult_lt_0_compat; apply exp_pos.
Qed.

Lemma sum_where_nonneg (keep : nat -> nat -> bool) (n : nat) (lh la : R) :
  0 <= lh -> 0 <= la -> 0 <= sum_where keep n lh la.
Proof.
  intros Hh Ha. unfold sum_where.
  apply Rsum_nonneg. intros h _. apply Rsum_nonneg. intros a _.
  destruct (keep h a); [apply joint_nonneg; assumption | lra].
Qed.

Lemma goal_range_cons (n : nat) : goal_range n = 0%nat :: seq 1 n.
Proof. unfold goal_range. rewrite Nat.add_1_r. reflexivity. Qed.

(** A sum that takes in the cell [(0, 0)] is positive. *)
Lemma sum_where_pos (keep : nat -> nat -> bool) (n : nat) (lh la : R) :
  keep 0%nat 0%nat = true -> 0 <= lh -> 0 <= la -> 0 < sum_where keep n lh la.
Proof.
  intros Hk Hh Ha. unfold sum_where. rewrite goal_range_cons. simpl. rewrite Hk.
  pose proof (joint_0_0_pos lh la) as H00.
  assert (H1 : 0 <= Rsum (map (fun a => if keep 0%nat a then joint lh la 0 a else 0)
                              (seq 1 n))).
  { apply Rsum_nonneg. intros a _.
    destruct (keep 0%nat a); [apply joint_nonneg; assumption | lra]. }
  assert (H2 : 0 <= Rsum (map (fun h =>
                 (if keep h 0%nat then joint lh la h 0 else 0) +
                 Rsum (map (fun a => if keep h a then joint lh la h a else 0)
                           (seq 1 n))) (seq 1 n))).
  { apply Rsum_nonneg. intros h _.
    assert (0 <= Rsum (map (fun a => if keep h a then joint lh la h a else 0)
                           (seq 1 n))).
    { apply Rsum_nonneg. intros a _.
      destruct (keep h a); [apply joint_nonneg; assumption | lra]. }
    assert (0 <= joint lh la h 0) by (apply joint_nonneg; assumption).
    destruct (keep h 0%nat); lra. }
  lra.
Qed.

Lemma simulate_total_pos (n : nat) (lh la : R) :
  0 <= lh -> 0 <= la ->
  0 < home_win_prob (simulate n lh la) + away_win_prob (simulate n lh la)
      + draw_prob (simulate n lh la).
Proof.
  intros Hh Ha. rewrite simulate_home, simulate_away, simulate_draw.
  pose proof (sum_where_nonneg is_home_win n Hh Ha).
  pose proof (sum_where_nonneg is_away_win n Hh Ha).
  pose proof (sum_where_pos is_draw n eq_refl Hh Ha).
  lra.
Qed.

Lemma lambda_home_nonneg (hs aws : TeamStats R) (la : LeagueAverages R) :
  valid_stats hs -> valid_stats aws -> valid_averages la ->
  0 <= lambda_home hs aws la.
Proof.
  intros [Hh _] [_ [_ [_ Ha]]] [Hl _]. rewrite lambda_home_R.
  apply Rmult_le_pos; [apply Rmult_le_pos |]; assumption.
Qed.

Lemma lambda_away_nonneg (hs aws : TeamStats R) (la : LeagueAverages R) :
  valid_stats hs -> valid_stats aws -> valid_averages la ->
  0 <= lambda_away hs aws la.
Proof.
  intros [_ [Hh _]] [_ [_ [Ha _]]] [_ Hl]. rewrite lambda_away_R.
  apply Rmult_le_pos; [apply Rmult_le_pos |]; assumption.
Qed.

(** ** Rounding *)

Lemma round_half_even_error (x : R) :
  x - 1 / 2 <= IZR (round_half_even x) <= x + 1 / 2.
Proof.
  pose proof (Zfloor.Zfloor_bound x) as [Hlo Hhi].
  unfold round_half_even.
  destruct (Rlt_dec (x - IZR (Zfloor.Zfloor x)) (1 / 2)) as [Hlt | Hnlt].
  - lra.
  - destruct (Rlt_dec (1 / 2) (x - IZR (Zfloor.Zfloor x))) as [Hgt | Hngt].
    + rewrite plus_IZR. lra.
    + destruct (Z.even (Zfloor.Zfloor x)); [| rewrite plus_IZR]; lra.
Qed.

Lemma round_half_even_IZR (z : Z) : round_half_even (IZR z) = z.
Proof.
  unfold round_half_even. rewrite Zfloor.ZfloorZ.
  destruct (Rlt_dec (IZR z - IZR z) (1 / 2)) as [_ | Hn]; [reflexivity | lra].
Qed.

Lemma round_half_even_mono (x y : R) :
  x <= y -> (round_half_even x <= round_half_even y)%Z.
Proof.
  intros Hxy.
  pose proof (Zfloor.Zfloor_le x y Hxy) as Hfloor.
  pose proof (Zfloor.Zfloor_bound x) as [Hxlo Hxhi].
  pose proof (Zfloor.Zfloor_bound y) as [Hylo Hyhi].
  unfold round_half_even.
  set (fx := Zfloor.Zfloor x) in *. set (fy := Zfloor.Zfloor y) in *.
  assert (Hstrict : IZR fx < IZR fy -> (fx + 1 <= fy)%Z).
  { intros Hlt. apply lt_IZR in Hlt. lia. }
  destruct (Rlt_dec (x - IZR fx) (1 / 2)) as [Hx1 | Hx1];
    [| destruct (Rlt_dec (1 / 2) (x - IZR fx)) as [Hx2 | Hx2];
       [| destruct (Z.even fx) eqn:Hex]];
    (destruct (Rlt_dec (y - IZR fy) (1 / 2)) as [Hy1 | Hy1];
     [| destruct (Rlt_dec (1 / 2) (y - IZR fy)) as [Hy2 | Hy2];
        [| destruct (Z.even fy) eqn:Hey]]);
    try lia; try (apply Hstrict; lra).
  destruct (Z.eq_dec fx fy) as [Heq | Hne]; [| lia].
  rewrite Heq in Hex. congruence.
Qed.

Lemma round2_error (x : R) : x - 1 / 200 <= round2 x <= x + 1 / 200.
Proof.
  unfold round2. pose proof (round_half_even_error (x * 100)). lra.
Qed.

Lemma round2_mono (x y : R) : x <= y -> round2 x <= round2 y.
Proof.
  intros Hxy. unfold round2.
  assert (Hz : (round_half_even (x * 100) <= round_half_even (y * 100))%Z)
    by (apply round_half_even_mono; lra).
  apply IZR_le in Hz. lra.
Qed.

Lemma round2_hundredths (z : Z) : round2 (IZR z / 100) = IZR z / 100.
Proof.
  unfold round2. replace (IZR z / 100 * 100) with (IZR z) by field.
  rewrite round_half_even_IZR. reflexivity.
Qed.

Lemma round2_100 : round2 (1 * 100) = 100.
Proof.
  replace (1 * 100) with (IZR 10000 / 100) by lra.
  rewrite round2_hundredths. lra.
Qed.

Lemma round2_0 : round2 (0 * 100) = 0.
Proof.
  replace (0 * 100) with (IZR 0 / 100) by lra.
  rewrite round2_hundredths. lra.
Qed.

(** ** Probability conservation *)

Lemma quotients_sum_to_one (h a d : R) :
  0 < h + a + d -> h / (h + a + d) + a / (h + a + d) + d / (h + a + d) = 1.
Proof. intros Hpos. field. lra. Qed.

(** With non-negative rates the guard of line 142 holds, so the sums are
    divided by their total. *)
Lemma normalise_simulate (lh la : R) (st : tally) :
  0 <= lh -> 0 <= la ->
  st = simulate max_goals lh la ->
  0 < home_win_prob st + away_win_prob st + draw_prob st /\
  normalise st =
  inr {| home_win_prob :=
           home_win_prob st / (home_win_prob st + away_win_prob st + draw_prob st);
         away_win_prob :=
           away_win_prob st / (home_win_prob st + away_win_prob st + draw_prob st);
         draw_prob :=
           draw_prob st / (home_win_prob st + away_win_prob st + draw_prob st);
         score_probabilities := score_probabilities st |}.
Proof.
  intros Hh Ha ->.
  assert (Hpos : 0 < home_win_prob (simulate max_goals lh la)
                     + away_win_prob (simulate max_goals lh la)
                     + draw_prob (simulate max_goals lh la))
    by (apply simulate_total_pos; assumption).
  split; [exact Hpos | apply normalise_pos; exact Hpos].
Qed.

Lemma moderate_stats_valid (s : TeamStats R) : moderate_stats s -> valid_stats s.
Proof. unfold moderate_stats, valid_stats. tauto. Qed.

Lemma moderate_averages_valid (la : LeagueAverages R) :
  moderate_averages la -> valid_averages la.
Proof. unfold moderate_averages, valid_averages. tauto. Qed.

Lemma in_range_valid (hs aws : TeamStats R) (la : LeagueAverages R) :
  in_range hs aws la -> valid_stats hs /\ valid_stats aws /\ valid_averages la.
Proof.
  intros [Hhs [Haws [Hla _]]].
  split; [apply moderate_stats_valid; exact Hhs |].
  split; [apply moderate_stats_valid; exact Haws |].
  apply moderate_averages_valid. exact Hla.
Qed.

(** C3: on an input that is valid and not degenerate (strength coefficients
    and league averages between 0 and [coefficient_bound], both rates at most
    [rate_bound]) the guard of line 142 holds, the normalised sums add up to
    exactly 1, the three returned percentages are their roundings to two
    decimals after the multiplication by 100, and they add up to 100 within
    0.02. *)
Theorem percentages_sum_to_100 (hs aws : TeamStats R) (la : LeagueAverages R) :
  in_range hs aws la ->
  exists p st',
    predict_core hs aws la = inr p /\
    0 < home_win_prob (simulate max_goals (lambda_home hs aws la) (lambda_away hs aws la))
        + away_win_prob (simulate max_goals (lambda_home hs aws la)
                                            (lambda_away hs aws la))
        + draw_prob (simulate max_goals (lambda_home hs aws la)
                                        (lambda_away hs aws la)) /\
    normalise (simulate max_goals (lambda_home hs aws la) (lambda_away hs aws la))
      = inr st' /\
    home_win_prob st' + away_win_prob st' + draw_prob st' = 1 /\
    home_team_win_probability p = round2 (home_win_prob st' * 100) /\
    away_team_win_probability p = round2 (away_win_prob st' * 100) /\
    draw_probability p = round2 (draw_prob st' * 100) /\
    Rabs (home_team_win_probability p + away_team_win_probability p
          + draw_probability p - 100) <= 0.02.
Proof.
  intros Hin. destruct (in_range_valid Hin) as [Hhs [Haws Hla]].
  pose proof (lambda_home_nonneg Hhs Haws Hla) as Hlh.
  pose proof (lambda_away_nonneg Hhs Haws Hla) as Hlaw.
  remember (simulate max_goals (lambda_home hs aws la) (lambda_away hs aws la))
    as st eqn:Hst.
  pose proof (normalise_simulate Hlh Hlaw Hst) as [Hpos Hnorm].
  pose proof Hnorm as Hcore. rewrite Hst in Hcore.
  apply predict_core_unfold in Hcore. rewrite <- Hst in Hcore.
  eexists. eexists.
  split; [exact Hcore |].
  split; [exact Hpos |].
  split; [exact Hnorm |].
  cbn [home_win_prob away_win_prob draw_prob home_team_win_probability
       away_team_win_probability draw_probability].
  pose proof (quotients_sum_to_one Hpos) as Hone.
  remember (home_win_prob st + away_win_prob st + draw_prob st) as total.
  split; [exact Hone |].
  repeat (split; [reflexivity |]).
  pose proof (round2_error (home_win_prob st / total * 100)).
  pose proof (round2_error (away_win_prob st / total * 100)).
  pose proof (round2_error (draw_prob st / total * 100)).
  apply Rabs_le. lra.
Qed.

Lemma percentages_sum_to_100_witness :
  exists p st',
    predict_core scenario_home scenario_away scenario_averages = inr p /\
    0 < home_win_prob (simulate max_goals
                         (lambda_home scenario_home scenario_away scenario_averages)
                         (lambda_away scenario_home scenario_away scenario_averages))
        + away_win_prob (simulate max_goals
                           (lambda_home scenario_home scenario_away scenario_averages)
                           (lambda_away scenario_home scenario_away scenario_averages))
        + draw_prob (simulate max_goals
                       (lambda_home scenario_home scenario_away scenario_averages)
                       (lambda_away scenario_home scenario_away scenario_averages)) /\
    normalise (simulate max_goals
                 (lambda_home scenario_home scenario_away scenario_averages)
                 (lambda_away scenario_home scenario_away scenario_averages))
      = inr st' /\
    home_win_prob st' + away_win_prob st' + draw_prob st' = 1 /\
    home_team_win_probability p = round2 (home_win_prob st' * 100) /\
    away_team_win_probability p = round2 (away_win_prob st' * 100) /\
    draw_probability p = round2 (draw_prob st' * 100) /\
    Rabs (home_team_win_probability p + away_team_win_probability p
          + draw_probability p - 100) <= 0.02.
Proof.
  apply (percentages_sum_to_100 (hs := scenario_home) (aws := scenario_away)
                                (la := scenario_averages)).
  in_range_by_computation.
Defined.

(** ** The ranking is a stable descending sort *)

Lemma insert_desc_perm (x : string * R) (l : list (string * R)) :
  Permutation (insert_desc x l) (x :: l).
Proof.
  induction l as [| y l IH]; simpl.
  - apply Permutation_refl.
  - destruct (Rlt_dec (snd x) (snd y)).
    + apply perm_trans with (y :: x :: l).
      * apply perm_skip. exact IH.
      * apply perm_swap.
    + apply Permutation_refl.
Qed.

Lemma sorted_desc_perm (l : list (string * R)) : Permutation (sorted_desc l) l.
Proof.
  induction l as [| x l IH]; simpl.
  - apply perm_nil.
  - apply perm_trans with (x :: sorted_desc l).
    + apply insert_desc_perm.
    + apply perm_skip. exact IH.
Qed.

Lemma insert_desc_sorted (x : string * R) (l : list (string * R)) :
  StronglySorted prob_ge l -> StronglySorted prob_ge (insert_desc x l).
Proof.
  induction l as [| y l IH]; simpl; intros Hs.
  - constructor; constructor.
  - apply StronglySorted_inv in Hs. destruct Hs as [Hl Hy].
    destruct (Rlt_dec (snd x) (snd y)) as [Hlt | Hge].
    + constructor; [apply IH; exact Hl |].
      apply (Permutation_Forall (Permutation_sym (insert_desc_perm x l))).
      constructor; [unfold prob_ge; lra | exact Hy].
    + constructor; [constructor; assumption |].
      constructor; [unfold prob_ge; lra |].
      apply (Forall_impl _ (P := prob_ge y)); [| exact Hy].
      unfold prob_ge. intros z Hz. lra.
Qed.

Lemma sorted_desc_sorted (l : list (string * R)) : StronglySorted prob_ge (sorted_desc l).
Proof.
  induction l as [| x l IH]; simpl.
  - constructor.
  - apply insert_desc_sorted. exact IH.
Qed.

Lemma insert_desc_stable (v : R) (x : string * R) (l : list (string * R)) :
  filter (has_probability v) (insert_desc x l) = filter (has_probability v) (x :: l).
Proof.
  induction l as [| y l IH]; simpl.
  - reflexivity.
  - destruct (Rlt_dec (snd x) (snd y)) as [Hlt | Hge]; [| reflexivity].
    simpl. rewrite IH. simpl. unfold has_probability.
    destruct (Req_dec_T (snd y) v) as [Hy | Hy];
      destruct (Req_dec_T (snd x) v) as [Hx | Hx]; try reflexivity.
    exfalso. lra.
Qed.

Lemma sorted_desc_stable (v : R) (l : list (string * R)) :
  filter (has_probability v) (sorted_desc l) = filter (has_probability v) l.
Proof.
  induction l as [| x l IH]; simpl.
  - reflexivity.
  - rewrite insert_desc_stable. simpl. rewrite IH. reflexivity.
Qed.

(** A list that already descends is left as it is. *)
Lemma sorted_desc_fixed (l : list (string * R)) :
  StronglySorted prob_ge l -> sorted_desc l = l.
Proof.
  induction l as [| x l IH]; simpl; intros Hs.
  - reflexivity.
  - apply StronglySorted_inv in Hs. destruct Hs as [Hl Hx].
    rewrite (IH Hl). destruct l as [| y l']; simpl; [reflexivity |].
    apply Forall_inv in Hx. unfold prob_ge in Hx.
    destruct (Rlt_dec (snd x) (snd y)) as [Hlt | _]; [lra | reflexivity].
Qed.

Lemma cells_length : List.length (cells max_goals) = 64%nat.
Proof. reflexivity. Qed.

(** The cell [(h, a)] is at position [8 * h + a] of the table. *)
Lemma scoreline_table_nth (lh la : R) (h a : nat) :
  (h <= max_goals)%nat -> (a <= max_goals)%nat ->
  nth_error (scoreline_table max_goals lh la) (8 * h + a) =
  Some (scoreline h a, joint lh la h a).
Proof.
  unfold max_goals. intros Hh Ha.
  do 8 (destruct h as [| h];
        [do 8 (destruct a as [| a]; [reflexivity |]); lia |]).
  lia.
Qed.

(** C6: the returned list is made of the first five items of the ranking,
    and the ranking is the 64 cells of the table (enumerated by ascending home
    goals, then ascending away goals) sorted by descending probability, items
    of equal probability staying in enumeration order. *)
Theorem top_five_is_stable_ranking (hs aws : TeamStats R) (la : LeagueAverages R) :
  exists p ranked,
    predict_core hs aws la = inr p /\
    top_five_scores p = map entry_of (firstn 5 ranked) /\
    List.length (top_five_scores p) = 5%nat /\
    List.length ranked = 64%nat /\
    Permutation ranked
      (scoreline_table max_goals (lambda_home hs aws la) (lambda_away hs aws la)) /\
    StronglySorted prob_ge ranked /\
    (forall v : R,
        filter (has_probability v) ranked =
        filter (has_probability v)
          (scoreline_table max_goals (lambda_home hs aws la) (lambda_away hs aws la))) /\
    (forall h a : nat,
        (h <= max_goals)%nat -> (a <= max_goals)%nat ->
        nth_error
          (scoreline_table max_goals (lambda_home hs aws la) (lambda_away hs aws la))
          (8 * h + a)
        = Some (scoreline h a,
                joint (lambda_home hs aws la) (lambda_away hs aws la) h a)).
Proof.
  remember (lambda_home hs aws la) as lh eqn:Hlh.
  remember (lambda_away hs aws la) as law eqn:Hlaw.
  destruct (normalise_returns (simulate max_goals lh law)) as [st' Hst'].
  pose proof Hst' as Hcore. rewrite Hlh, Hlaw in Hcore.
  apply predict_core_unfold in Hcore. rewrite <- Hlh, <- Hlaw in Hcore.
  rewrite simulate_scores in Hcore.
  assert (Hlen : List.length (sorted_desc (scoreline_table max_goals lh law)) = 64%nat).
  { rewrite (Permutation_length (sorted_desc_perm _)).
    unfold scoreline_table. rewrite length_map. apply cells_length. }
  eexists. exists (sorted_desc (scoreline_table max_goals lh law)).
  split; [exact Hcore |].
  cbn [top_five_scores].
  split; [reflexivity |].
  split.
  { unfold top_five. rewrite length_map, length_firstn, Hlen. reflexivity. }
  split; [exact Hlen |].
  split; [apply sorted_desc_perm |].
  split; [apply sorted_desc_sorted |].
  split; [intros v; apply sorted_desc_stable |].
  intros h a. apply scoreline_table_nth.
Qed.

(** ** Rates 0: a certain goalless draw *)

Lemma joint_rates_0_at_0_0 : joint 0 0 0 0 = 1.
Proof. unfold joint. rewrite poisson_pmf_rate_0_at_0. lra. Qed.

Lemma joint_rates_0_elsewhere (h a : nat) :
  (h =? 0)%nat && (a =? 0)%nat = false -> joint 0 0 h a = 0.
Proof.
  intros Hc. unfold joint. destruct h as [| h].
  - destruct a as [| a]; [discriminate |].
    rewrite poisson_pmf_rate_0_at_S. lra.
  - rewrite poisson_pmf_rate_0_at_S. lra.
Qed.

Lemma cells_from_0_0 : cells max_goals = (0%nat, 0%nat) :: tl (cells max_goals).
Proof. reflexivity. Qed.

Lemma cells_tail_not_0_0 :
  forall c, In c (tl (cells max_goals)) ->
            (fst c =? 0)%nat && (snd c =? 0)%nat = false.
Proof.
  intros c Hc. apply negb_true_iff. revert c Hc.
  apply (forallb_forall (fun c => negb ((fst c =? 0)%nat && (snd c =? 0)%nat))).
  vm_compute. reflexivity.
Qed.

Lemma Rsum_all_zero {A : Type} (f : A -> R) (l : list A) :
  (forall x, In x l -> f x = 0) -> Rsum (map f l) = 0.
Proof.
  intros Hf. rewrite (Rsum_ext f (fun _ => 0) l Hf). apply Rsum_zero.
Qed.

Lemma sum_where_rates_0 (keep : nat -> nat -> bool) :
  sum_where keep max_goals 0 0 = if keep 0%nat 0%nat then 1 else 0.
Proof.
  unfold sum_where.
  rewrite <- (cells_sum (fun h a => if keep h a then joint 0 0 h a else 0)).
  rewrite cells_from_0_0. cbn [map Rsum fold_right fst snd].
  fold (Rsum (map (fun c => if keep (fst c) (snd c)
                            then joint 0 0 (fst c) (snd c) else 0)
                  (tl (cells max_goals)))).
  rewrite Rsum_all_zero.
  - rewrite joint_rates_0_at_0_0. destruct (keep 0%nat 0%nat); lra.
  - intros c Hc. rewrite (joint_rates_0_elsewhere _ _ (cells_tail_not_0_0 Hc)).
    destruct (keep (fst c) (snd c)); reflexivity.
Qed.

Lemma scoreline_table_rates_0 :
  scoreline_table max_goals 0 0 =
  ("0-0"%string, 1) ::
  map (fun c => (scoreline (fst c) (snd c), 0)) (tl (cells max_goals)).
Proof.
  unfold scoreline_table. rewrite cells_from_0_0 at 1.
  cbn [map fst snd]. rewrite joint_rates_0_at_0_0. f_equal.
  apply map_ext_in. intros c Hc.
  rewrite (joint_rates_0_elsewhere _ _ (cells_tail_not_0_0 Hc)). reflexivity.
Qed.

Lemma scoreline_table_rates_0_sorted :
  StronglySorted prob_ge (scoreline_table max_goals 0 0).
Proof.
  rewrite scoreline_table_rates_0.
  assert (Hzero : forall l : list (nat * nat),
             Forall (fun item : string * R => snd item = 0)
                    (map (fun c => (scoreline (fst c) (snd c), 0)) l)).
  { intros l. apply Forall_forall. intros item Hin.
    apply in_map_iff in Hin. destruct Hin as [c [<- _]]. reflexivity. }
  assert (Htail : forall l : list (string * R),
             Forall (fun item => snd item = 0) l -> StronglySorted prob_ge l).
  { induction l as [| y l IH]; intros Hl; constructor.
    - apply IH. apply Forall_inv_tail in Hl. exact Hl.
    - pose proof (Forall_inv Hl) as Hy. apply Forall_inv_tail in Hl.
      apply (Forall_impl _ (P := fun item => snd item = 0)); [| exact Hl].
      unfold prob_ge. intros z Hz. lra. }
  constructor.
  - apply Htail. apply Hzero.
  - apply (Forall_impl _ (P := fun item : string * R => snd item = 0));
      [| apply Hzero].
    unfold prob_ge. intros z Hz. simpl. lra.
Qed.

Lemma top_five_rates_0 :
  top_five (sorted_desc (scoreline_table max_goals 0 0)) =
  [ {| score := "0-0"; probability := 100 |};
    {| score := "0-1"; probability := 0 |};
    {| score := "0-2"; probability := 0 |};
    {| score := "0-3"; probability := 0 |};
    {| score := "0-4"; probability := 0 |} ].
Proof.
  rewrite (sorted_desc_fixed scoreline_table_rates_0_sorted).
  rewrite scoreline_table_rates_0. unfold top_five.
  cbn [firstn tl cells max_goals map flat_map goal_range seq Nat.add app fst snd].
  rewrite round2_100, round2_0. reflexivity.
Qed.

(** The whole prediction when both rates are 0. *)
Lemma predict_core_rates_0 (hs aws : TeamStats R) (la : LeagueAverages R) :
  lambda_home hs aws la = 0 -> lambda_away hs aws la = 0 ->
  predict_core hs aws la = inr (goalless_prediction hs aws la).
Proof.
  intros Hh Ha.
  remember (simulate max_goals 0 0) as st eqn:Hst.
  assert (Hhome : home_win_prob st = 0)
    by (rewrite Hst, simulate_home, sum_where_rates_0; reflexivity).
  assert (Haway : away_win_prob st = 0)
    by (rewrite Hst, simulate_away, sum_where_rates_0; reflexivity).
  assert (Hdraw : draw_prob st = 1)
    by (rewrite Hst, simulate_draw, sum_where_rates_0; reflexivity).
  assert (Hpos : 0 < home_win_prob st + away_win_prob st + draw_prob st) by lra.
  pose proof (normalise_pos st Hpos) as Hnorm.
  rewrite Hhome, Haway, Hdraw in Hnorm.
  replace (0 / (0 + 0 + 1)) with 0 in Hnorm by field.
  replace (1 / (0 + 0 + 1)) with 1 in Hnorm by field.
  rewrite Hst in Hnorm. rewrite <- Hh in Hnorm at 1. rewrite <- Ha in Hnorm at 1.
  apply predict_core_unfold in Hnorm. rewrite Hnorm.
  cbn [home_win_prob away_win_prob draw_prob].
  rewrite Hh, Ha, simulate_scores, top_five_rates_0, round2_100, round2_0.
  unfold goalless_prediction.
  replace (round2 0) with 0; [reflexivity |].
  rewrite <- round2_0 at 1. f_equal. lra.
Qed.

Lemma lambda_zero_home_record (s : TeamStats R) (la : LeagueAverages R) :
  lambda_home zero_stats s la = 0 /\ lambda_away zero_stats s la = 0.
Proof. rewrite lambda_home_R, lambda_away_R. simpl. split; ring. Qed.

Lemma lambda_zero_away_record (s : TeamStats R) (la : LeagueAverages R) :
  lambda_home s zero_stats la = 0 /\ lambda_away s zero_stats la = 0.
Proof. rewrite lambda_home_R, lambda_away_R. simpl. split; ring. Qed.

Lemma dict_get_0_0_rates_0 :
  dict_get "0-0" (score_probabilities (simulate max_goals 0 0)) = Some 1.
Proof. rewrite simulate_scores, scoreline_table_rates_0. reflexivity. Qed.

(** C7: with the all-zero record on both sides the two rates are 0, the
    scoreline "0-0" has joint probability 1 in the table, and it heads the
    returned list with probability 100.00. *)
Theorem both_records_zero (la : LeagueAverages R) :
  lambda_home zero_stats zero_stats la = 0 /\
  lambda_away zero_stats zero_stats la = 0 /\
  dict_get "0-0"
    (score_probabilities
       (simulate max_goals (lambda_home zero_stats zero_stats la)
                           (lambda_away zero_stats zero_stats la))) = Some 1 /\
  exists p,
    predict_core zero_stats zero_stats la = inr p /\
    hd_error (top_five_scores p) = Some {| score := "0-0"; probability := 100 |}.
Proof.
  destruct (lambda_zero_home_record zero_stats la) as [Hh Ha].
  split; [exact Hh | split; [exact Ha | split]].
  - rewrite Hh, Ha. apply dict_get_0_0_rates_0.
  - exists (goalless_prediction zero_stats zero_stats la).
    split; [apply predict_core_rates_0; assumption | reflexivity].
Qed.

(** C10: the record substituted when the statistics of a team fail is the
    all-zero record; when one of the two records is the all-zero record,
    whatever the other record and the league averages are, both rates are 0
    and the prediction is a certain goalless draw: draw 100, both wins 0, and
    "0-0" first with probability 100. *)
Theorem one_record_zero (s : TeamStats R) (la : LeagueAverages R) :
  (stats_or_zero StatsRaised = zero_stats /\ stats_or_zero StatsInvalid = zero_stats) /\
  (lambda_home zero_stats s la = 0 /\ lambda_away zero_stats s la = 0 /\
   predict_core zero_stats s la = inr (goalless_prediction zero_stats s la)) /\
  (lambda_home s zero_stats la = 0 /\ lambda_away s zero_stats la = 0 /\
   predict_core s zero_stats la = inr (goalless_prediction s zero_stats la)) /\
  (forall hs aws : TeamStats R,
      draw_probability (goalless_prediction hs aws la) = 100 /\
      home_team_win_probability (goalless_prediction hs aws la) = 0 /\
      away_team_win_probability (goalless_prediction hs aws la) = 0 /\
      hd_error (top_five_scores (goalless_prediction hs aws la))
      = Some {| score := "0-0"; probability := 100 |}).
Proof.
  destruct (lambda_zero_home_record s la) as [Hh1 Ha1].
  destruct (lambda_zero_away_record s la) as [Hh2 Ha2].
  split; [split; reflexivity | split; [| split]].
  - split; [exact Hh1 | split; [exact Ha1 |]].
    apply predict_core_rates_0; assumption.
  - split; [exact Hh2 | split; [exact Ha2 |]].
    apply predict_core_rates_0; assumption.
  - intros hs aws. repeat split.
Qed.

(** ** The season fallback *)

(** C9: when the averages of the resolved season are both 0, the matches of
    the season before are fetched as well; if there are none the call returns
    the error record that names both seasons, and no prediction; if there are
    some, the prediction is made from them. *)
Theorem fallback_to_previous_season
    (Match : Type)
    (retrieve_matches_for_team : Z -> Z -> option (list Match))
    (calculate_league_averages : list Match -> LeagueAverages R)
    (filter_matches_by_team_id : Z -> list Match -> list Match)
    (calculate_final_team_stats :
       Z -> Z -> Z -> LeagueAverages R -> list Match -> stats_outcome)
    (now : datetime) (home_team_id away_team_id league_id : Z) :
  avg_home_goals
    (calculate_league_averages
       (or_empty (retrieve_matches_for_team league_id (get_current_season now)))) = 0 ->
  avg_away_goals
    (calculate_league_averages
       (or_empty (retrieve_matches_for_team league_id (get_current_season now)))) = 0 ->
  fst (predict_match retrieve_matches_for_team calculate_league_averages
         filter_matches_by_team_id calculate_final_team_stats
         now home_team_id away_team_id league_id)
  = [mkFetch league_id (get_current_season now);
     mkFetch league_id (get_current_season now - 1)%Z] /\
  (or_empty (retrieve_matches_for_team league_id (get_current_season now - 1)%Z) = [] ->
   snd (predict_match retrieve_matches_for_team calculate_league_averages
          filter_matches_by_team_id calculate_final_team_stats
          now home_team_id away_team_id league_id)
   = inr (ErrorRecord
            ("No match data found for the league in season "
             ++ str_of_Z (get_current_season now) ++ " or "
             ++ str_of_Z (get_current_season now - 1)%Z
             ++ " to calculate averages."))) /\
  (or_empty (retrieve_matches_for_team league_id (get_current_season now - 1)%Z) <> [] ->
   snd (predict_match retrieve_matches_for_team calculate_league_averages
          filter_matches_by_team_id calculate_final_team_stats
          now home_team_id away_team_id league_id)
   = predict_with filter_matches_by_team_id calculate_final_team_stats
       (get_current_season now - 1)%Z
       (or_empty (retrieve_matches_for_team league_id (get_current_season now - 1)%Z))
       (calculate_league_averages
          (or_empty (retrieve_matches_for_team league_id (get_current_season now - 1)%Z)))
       home_team_id away_team_id league_id).
Proof.
  intros Hhome Haway. unfold predict_match.
  destruct (Req_dec_T _ 0) as [_ | Hn]; [| contradiction].
  destruct (Req_dec_T _ 0) as [_ | Hn]; [| contradiction].
  destruct (or_empty (retrieve_matches_for_team league_id (get_current_season now - 1)%Z))
    as [| m ms] eqn:Hprev; simpl.
  - split; [reflexivity | split; [reflexivity |]].
    intros Hne. contradiction.
  - split; [reflexivity | split; [discriminate |]].
    intros _. reflexivity.
Qed.

Lemma fallback_to_previous_season_witness :
  snd (predict_match (Match := unit) (fun _ _ => None)
         (fun _ => mkLeagueAverages 0 0) (fun _ l => l)
         (fun _ _ _ _ _ => StatsRaised)
         (mkDatetime 2025 7 15) 57 66 2021)
  = inr (ErrorRecord
           "No match data found for the league in season 2024 or 2023 to calculate averages.").
Proof.
  apply (fallback_to_previous_season (Match := unit) (fun _ _ => None)
           (fun _ => mkLeagueAverages 0 0) (fun _ l => l)
           (fun _ _ _ _ _ => StatsRaised)
           (mkDatetime 2025 7 15) 57 66 2021 eq_refl eq_refl).
  reflexivity.
Defined.

(** ** Exchanging home and away *)

Lemma sum_where_flip (keep : nat -> nat -> bool) (n : nat) (x y : R) :
  sum_where keep n x y = sum_where (fun h a => keep a h) n y x.
Proof.
  unfold sum_where.
  rewrite (Rsum_swap (fun h a => if keep h a then joint x y h a else 0)).
  apply Rsum_ext. intros a _. apply Rsum_ext. intros h _.
  unfold joint. destruct (keep h a); [apply Rmult_comm | reflexivity].
Qed.

Lemma sum_where_keep_ext (keep keep' : nat -> nat -> bool) (n : nat) (x y : R) :
  (forall h a, keep h a = keep' h a) -> sum_where keep n x y = sum_where keep' n x y.
Proof.
  intros Hk. unfold sum_where.
  apply Rsum_ext. intros h _. apply Rsum_ext. intros a _. rewrite Hk. reflexivity.
Qed.

Lemma simulate_exchange (n : nat) (x y : R) :
  home_win_prob (simulate n y x) = away_win_prob (simulate n x y) /\
  away_win_prob (simulate n y x) = home_win_prob (simulate n x y) /\
  draw_prob (simulate n y x) = draw_prob (simulate n x y).
Proof.
  rewrite !simulate_home, !simulate_away, !simulate_draw.
  split; [| split].
  - rewrite (sum_where_flip is_away_win). reflexivity.
  - rewrite (sum_where_flip is_home_win). reflexivity.
  - rewrite (sum_where_flip is_draw n x y).
    apply sum_where_keep_ext. intros h a. apply Nat.eqb_sym.
Qed.

(** Two inputs whose rates are exchanged give exchanged win percentages and
    the same draw percentage. *)
Lemma predict_core_exchange (hs aws hs' aws' : TeamStats R) (la la' : LeagueAverages R) :
  lambda_home hs' aws' la' = lambda_away hs aws la ->
  lambda_away hs' aws' la' = lambda_home hs aws la ->
  exists p p',
    predict_core hs aws la = inr p /\
    predict_core hs' aws' la' = inr p' /\
    home_team_win_probability p' = away_team_win_probability p /\
    away_team_win_probability p' = home_team_win_probability p /\
    draw_probability p' = draw_probability p.
Proof.
  intros Hh Ha.
  remember (lambda_home hs aws la) as x eqn:Hx.
  remember (lambda_away hs aws la) as y eqn:Hy.
  destruct (simulate_exchange max_goals x y) as [E1 [E2 E3]].
  remember (simulate max_goals x y) as st eqn:Hst.
  remember (simulate max_goals y x) as st' eqn:Hst'.
  destruct (Rlt_dec 0 (home_win_prob st + away_win_prob st + draw_prob st)) as [Hp | Hn].
  - assert (Hp' : 0 < home_win_prob st' + away_win_prob st' + draw_prob st')
      by (rewrite E1, E2, E3; lra).
    pose proof (normalise_pos st Hp) as N. pose proof (normalise_pos st' Hp') as N'.
    rewrite Hst, Hx, Hy in N. apply predict_core_unfold in N.
    rewrite Hst', <- Hh, <- Ha in N'. apply predict_core_unfold in N'.
    eexists. eexists. split; [exact N | split; [exact N' |]].
    cbn [home_team_win_probability away_team_win_probability draw_probability
         home_win_prob away_win_prob draw_prob].
    rewrite Hh, Ha, <- Hst', <- Hx, <- Hy, <- Hst.
    replace (home_win_prob st' + away_win_prob st' + draw_prob st')
      with (home_win_prob st + away_win_prob st + draw_prob st)
      by (rewrite E1, E2, E3; lra).
    rewrite E1, E2, E3. repeat split.
  - assert (Hn' : ~ 0 < home_win_prob st' + away_win_prob st' + draw_prob st')
      by (rewrite E1, E2, E3; lra).
    pose proof (normalise_skip st Hn) as N. pose proof (normalise_skip st' Hn') as N'.
    rewrite Hst, Hx, Hy in N. apply predict_core_unfold in N.
    rewrite Hst', <- Hh, <- Ha in N'. apply predict_core_unfold in N'.
    eexists. eexists. split; [exact N | split; [exact N' |]].
    cbn [home_team_win_probability away_team_win_probability draw_probability].
    rewrite Hh, Ha, <- Hst', <- Hx, <- Hy, <- Hst.
    rewrite E1, E2, E3. repeat split.
Qed.

(** C4, as the code has it: the home side is rated by its home coefficients
    and the away side by its away coefficients, so the two sides are exchanged
    by swapping the records together with their home and away coefficients
    (and the two league averages); this swaps the two win percentages and keeps
    the draw percentage.  Swapping the records alone does so for records that
    do not tell home from away. *)
Theorem exchange_of_sides (hs aws : TeamStats R) (la : LeagueAverages R) :
  (exists p p',
      predict_core hs aws la = inr p /\
      predict_core (mirror aws) (mirror hs) (swap_averages la) = inr p' /\
      home_team_win_probability p' = away_team_win_probability p /\
      away_team_win_probability p' = home_team_win_probability p /\
      draw_probability p' = draw_probability p) /\
  (venue_free hs -> venue_free aws ->
   exists p p',
      predict_core hs aws la = inr p /\
      predict_core aws hs (swap_averages la) = inr p' /\
      home_team_win_probability p' = away_team_win_probability p /\
      away_team_win_probability p' = home_team_win_probability p /\
      draw_probability p' = draw_probability p).
Proof.
  split.
  - apply predict_core_exchange; reflexivity.
  - intros [Hha Hhd] [Haa Had]. apply predict_core_exchange.
    + rewrite lambda_home_R, lambda_away_R. simpl. rewrite Haa, Hhd. reflexivity.
    + rewrite lambda_home_R, lambda_away_R. simpl. rewrite Hha, Had. reflexivity.
Qed.

Lemma exchange_of_sides_witness :
  exists p p',
    predict_core (mkTeamStats 1.2 0.9 1.2 0.9) (mkTeamStats 0.8 1.1 0.8 1.1)
                 scenario_averages = inr p /\
    predict_core (mkTeamStats 0.8 1.1 0.8 1.1) (mkTeamStats 1.2 0.9 1.2 0.9)
                 (swap_averages scenario_averages) = inr p' /\
    home_team_win_probability p' = away_team_win_probability p /\
    away_team_win_probability p' = home_team_win_probability p /\
    draw_probability p' = draw_probability p.
Proof.
  apply (exchange_of_sides (mkTeamStats 1.2 0.9 1.2 0.9) (mkTeamStats 0.8 1.1 0.8 1.1)
                           scenario_averages).
  - split; reflexivity.
  - split; reflexivity.
Defined.

(** ** An away side that cannot score *)

Lemma joint_away_rate_0_at_0 (lh : R) (h : nat) : joint lh 0 h 0 = poisson_pmf h lh.
Proof. unfold joint. rewrite poisson_pmf_rate_0_at_0. lra. Qed.

Lemma joint_away_rate_0_at_S (lh : R) (h a : nat) : joint lh 0 h (S a) = 0.
Proof. unfold joint. rewrite poisson_pmf_rate_0_at_S. lra. Qed.

(** With an away rate of 0 only the column [a = 0] of the table counts. *)
Lemma sum_where_away_rate_0 (keep : nat -> nat -> bool) (n : nat) (lh : R) :
  sum_where keep n lh 0 =
  Rsum (map (fun h => if keep h 0%nat then poisson_pmf h lh else 0) (goal_range n)).
Proof.
  unfold sum_where. apply Rsum_ext. intros h _.
  rewrite goal_range_cons. cbn [map Rsum fold_right].
  fold (Rsum (map (fun a => if keep h a then joint lh 0 h a else 0) (seq 1 n))).
  rewrite Rsum_all_zero.
  - rewrite joint_away_rate_0_at_0. destruct (keep h 0%nat); lra.
  - intros a Ha. apply in_seq in Ha. destruct a as [| a]; [lia |].
    rewrite joint_away_rate_0_at_S. destruct (keep h (S a)); reflexivity.
Qed.

Lemma poisson_pmf_1_rate_1 : poisson_pmf 1 1 = exp (- 1).
Proof.
  unfold poisson_pmf. simpl. replace (- (1)) with (- 1) by lra. field.
Qed.

Lemma share_le_half (d t : R) : 0 < t -> 2 * d <= t -> d / t <= 1 / 2.
Proof.
  intros Ht Hd. apply (Rmult_le_reg_r t); [exact Ht |].
  unfold Rdiv. rewrite Rmult_assoc, Rinv_l by lra. lra.
Qed.

(** The three sums of the table for the rates 1 and 0. *)
Lemma simulate_rates_1_0 :
  away_win_prob (simulate max_goals 1 0) = 0 /\
  draw_prob (simulate max_goals 1 0) = exp (- 1) /\
  exp (- 1) <= home_win_prob (simulate max_goals 1 0).
Proof.
  rewrite simulate_home, simulate_away, simulate_draw, !sum_where_away_rate_0.
  cbn [max_goals goal_range seq Nat.add map Rsum fold_right
       is_home_win is_away_win is_draw Nat.ltb Nat.leb Nat.eqb].
  rewrite poisson_pmf_0, poisson_pmf_1_rate_1.
  replace (- (1)) with (- 1) by lra.
  pose proof (poisson_pmf_nonneg 2 Rle_0_1). pose proof (poisson_pmf_nonneg 3 Rle_0_1).
  pose proof (poisson_pmf_nonneg 4 Rle_0_1). pose proof (poisson_pmf_nonneg 5 Rle_0_1).
  pose proof (poisson_pmf_nonneg 6 Rle_0_1). pose proof (poisson_pmf_nonneg 7 Rle_0_1).
  repeat split; lra.
Qed.

Lemma lopsided_rates :
  lambda_home lopsided_home lopsided_away unit_averages = 1 /\
  lambda_away lopsided_home lopsided_away unit_averages = 0 /\
  lambda_home lopsided_away lopsided_home (swap_averages unit_averages) = 0 /\
  lambda_away lopsided_away lopsided_home (swap_averages unit_averages) = 0.
Proof. rewrite !lambda_home_R, !lambda_away_R. simpl. repeat split; ring. Qed.

(** C4, as stated, fails: for [lopsided_home] against [lopsided_away] the
    rates are 1 and 0, and once the two records and the two league averages
    are swapped both rates are 0; the draw percentage goes from at most 50.01
    to 100. *)
Lemma swapping_records_counterexample :
  exists p p',
    predict_core lopsided_home lopsided_away unit_averages = inr p /\
    predict_core lopsided_away lopsided_home (swap_averages unit_averages) = inr p' /\
    ~ (home_team_win_probability p' = away_team_win_probability p /\
       away_team_win_probability p' = home_team_win_probability p /\
       draw_probability p' = draw_probability p).
Proof.
  destruct lopsided_rates as [H1 [H2 [H3 H4]]].
  destruct simulate_rates_1_0 as [Ea [Ed Eh]].
  pose proof (exp_pos (- 1)) as He.
  remember (simulate max_goals 1 0) as st eqn:Hst.
  assert (Hp : 0 < home_win_prob st + away_win_prob st + draw_prob st) by lra.
  pose proof (normalise_pos st Hp) as N.
  rewrite Hst in N. rewrite <- H1 in N at 1. rewrite <- H2 in N at 1.
  apply predict_core_unfold in N.
  eexists. exists (goalless_prediction lopsided_away lopsided_home
                     (swap_averages unit_averages)).
  split; [exact N |].
  split; [apply predict_core_rates_0; assumption |].
  cbn [home_team_win_probability away_team_win_probability draw_probability
       goalless_prediction home_win_prob away_win_prob draw_prob].
  rewrite <- Hst. intros [_ [_ Hdraw]].
  assert (Hhalf : draw_prob st / (home_win_prob st + away_win_prob st + draw_prob st)
                  <= 1 / 2) by (apply share_le_half; lra).
  pose proof (round2_error
                (draw_prob st / (home_win_prob st + away_win_prob st + draw_prob st)
                 * 100)) as Hr.
  lra.
Qed.

(** ** A stronger home attack *)

Lemma Rsum_prod {A B : Type} (f : A -> R) (g : B -> R) (l1 : list A) (l2 : list B) :
  Rsum (map f l1) * Rsum (map g l2) =
  Rsum (map (fun i => Rsum (map (fun j => f i * g j) l2)) l1).
Proof.
  rewrite <- Rsum_scal_r. apply Rsum_ext. intros i _.
  rewrite Rsum_scal_l. reflexivity.
Qed.

(** The likelihood ratio of two Poisson laws is monotone in the count. *)
Lemma poisson_pmf_ratio (x y : R) (h h' : nat) :
  0 <= x -> x <= y -> (h' <= h)%nat ->
  poisson_pmf h x * poisson_pmf h' y <= poisson_pmf h y * poisson_pmf h' x.
Proof.
  intros Hx Hxy Hh.
  replace h with (h' + (h - h'))%nat by lia.
  set (k := (h - h')%nat). unfold poisson_pmf. rewrite !pow_add.
  pose proof (INR_fact_lt_0 (h' + k)) as Hf1. pose proof (INR_fact_lt_0 h') as Hf2.
  set (c := exp (- x) * exp (- y) / INR (fact (h' + k)) / INR (fact h') * (x ^ h' * y ^ h')).
  replace (x ^ h' * x ^ k * exp (- x) / INR (fact (h' + k))
           * (y ^ h' * exp (- y) / INR (fact h')))
    with (c * x ^ k) by (unfold c; field; lra).
  replace (y ^ h' * y ^ k * exp (- y) / INR (fact (h' + k))
           * (x ^ h' * exp (- x) / INR (fact h')))
    with (c * y ^ k) by (unfold c; field; lra).
  apply Rmult_le_compat_l.
  - unfold c. apply Rmult_le_pos.
    + apply Rmult_le_pos; [apply Rmult_le_pos |].
      * left. apply Rmult_lt_0_compat; apply exp_pos.
      * left. apply Rinv_0_lt_compat. exact Hf1.
      * left. apply Rinv_0_lt_compat. exact Hf2.
    + apply Rmult_le_pos; apply pow_le; lra.
  - apply pow_incr. lra.
Qed.

(** The share of the counts above [a] grows with the likelihood ratio. *)
Lemma tail_share (l : list nat) (p q : nat -> R) (a : nat) :
  (forall h h', (h' <= h)%nat -> p h * q h' <= q h * p h') ->
  Rsum (map (fun h => if (a <? h)%nat then p h else 0) l) * Rsum (map q l) <=
  Rsum (map (fun h => if (a <? h)%nat then q h else 0) l) * Rsum (map p l).
Proof.
  intros Hratio.
  assert (Hsplit : forall r : nat -> R,
             Rsum (map r l) =
             Rsum (map (fun h => if (a <? h)%nat then r h else 0) l)
             + Rsum (map (fun h => if (a <? h)%nat then 0 else r h) l)).
  { intros r. rewrite <- Rsum_plus. apply Rsum_ext. intros h _.
    destruct (a <? h)%nat; lra. }
  assert (Hcross :
            Rsum (map (fun h => if (a <? h)%nat then p h else 0) l)
            * Rsum (map (fun h => if (a <? h)%nat then 0 else q h) l) <=
            Rsum (map (fun h => if (a <? h)%nat then q h else 0) l)
            * Rsum (map (fun h => if (a <? h)%nat then 0 else p h) l)).
  { rewrite !Rsum_prod. apply Rsum_le. intros h _. apply Rsum_le. intros h' _.
    destruct (Nat.ltb_spec a h) as [Hah | Hah].
    - destruct (Nat.ltb_spec a h') as [Hah' | Hah'].
      + lra.
      + apply Hratio. lia.
    - lra. }
  rewrite (Hsplit p), (Hsplit q).
  remember (Rsum (map (fun h => if (a <? h)%nat then p h else 0) l)) as Fp.
  remember (Rsum (map (fun h => if (a <? h)%nat then q h else 0) l)) as Fq.
  remember (Rsum (map (fun h => if (a <? h)%nat then 0 else p h) l)) as Gp.
  remember (Rsum (map (fun h => if (a <? h)%nat then 0 else q h) l)) as Gq.
  nra.
Qed.

Lemma sum_where_partition (n : nat) (x y : R) :
  sum_where is_home_win n x y + sum_where is_away_win n x y + sum_where is_draw n x y =
  Rsum (map (fun h => poisson_pmf h x) (goal_range n))
  * Rsum (map (fun a => poisson_pmf a y) (goal_range n)).
Proof.
  rewrite Rsum_prod. unfold sum_where. rewrite <- !Rsum_plus.
  apply Rsum_ext. intros h _. rewrite <- !Rsum_plus.
  apply Rsum_ext. intros a _.
  unfold is_home_win, is_away_win, is_draw, joint.
  destruct (Nat.ltb_spec a h), (Nat.ltb_spec h a), (Nat.eqb_spec h a); try lia; lra.
Qed.

Lemma sum_where_home_by_column (n : nat) (x y : R) :
  sum_where is_home_win n x y =
  Rsum (map (fun a =>
               poisson_pmf a y *
               Rsum (map (fun h => if (a <? h)%nat then poisson_pmf h x else 0)
                         (goal_range n)))
            (goal_range n)).
Proof.
  unfold sum_where.
  rewrite (Rsum_swap (fun h a => if is_home_win h a then joint x y h a else 0)).
  apply Rsum_ext. intros a _. rewrite <- Rsum_scal_l.
  apply Rsum_ext. intros h _. unfold is_home_win, joint.
  destruct (a <? h)%nat; lra.
Qed.

(** Cross-multiplied: the home-win share of the table does not go down when
    the home rate goes up. *)
Lemma home_share_cross (n : nat) (x y la : R) :
  0 <= x -> x <= y -> 0 <= la ->
  sum_where is_home_win n x la
  * (sum_where is_home_win n y la + sum_where is_away_win n y la
     + sum_where is_draw n y la) <=
  sum_where is_home_win n y la
  * (sum_where is_home_win n x la + sum_where is_away_win n x la
     + sum_where is_draw n x la).
Proof.
  intros Hx Hxy Hla. rewrite !sum_where_partition, !sum_where_home_by_column.
  assert (HV : 0 <= Rsum (map (fun a => poisson_pmf a la) (goal_range n))).
  { apply Rsum_nonneg. intros a _. apply poisson_pmf_nonneg. exact Hla. }
  rewrite <- !Rmult_assoc. apply Rmult_le_compat_r; [exact HV |].
  rewrite <- !Rsum_scal_r. apply Rsum_le. intros a _.
  rewrite !Rmult_assoc. apply Rmult_le_compat_l.
  - apply poisson_pmf_nonneg. exact Hla.
  - apply (tail_share (goal_range n) (fun h => poisson_pmf h x)
                      (fun h => poisson_pmf h y) a).
    intros h h' Hh. apply poisson_pmf_ratio; assumption.
Qed.

Lemma div_le_cross (a b c d : R) :
  0 < b -> 0 < d -> a * d <= c * b -> a / b <= c / d.
Proof.
  intros Hb Hd Hcross.
  apply (Rmult_le_reg_r (b * d)); [apply Rmult_lt_0_compat; assumption |].
  replace (a / b * (b * d)) with (a * d) by (field; lra).
  replace (c / d * (b * d)) with (c * b) by (field; lra).
  exact Hcross.
Qed.

Lemma lambda_home_with_attack (x : R) (hs aws : TeamStats R) (la : LeagueAverages R) :
  lambda_home (with_attack_home x hs) aws la
  = x * defense_strength_away aws * avg_home_goals la.
Proof. reflexivity. Qed.

Lemma lambda_away_with_attack (x : R) (hs aws : TeamStats R) (la : LeagueAverages R) :
  lambda_away (with_attack_home x hs) aws la = lambda_away hs aws la.
Proof. reflexivity. Qed.

(** The returned home-win percentage as a function of the two rates. *)
Lemma home_percentage_monotone (hs1 hs2 aws : TeamStats R) (la : LeagueAverages R) :
  0 <= lambda_home hs1 aws la ->
  lambda_home hs1 aws la <= lambda_home hs2 aws la ->
  0 <= lambda_away hs1 aws la ->
  lambda_away hs2 aws la = lambda_away hs1 aws la ->
  exists p1 p2,
    predict_core hs1 aws la = inr p1 /\
    predict_core hs2 aws la = inr p2 /\
    home_team_win_probability p1 <= home_team_win_probability p2.
Proof.
  intros Hx Hxy Hla Haway.
  remember (lambda_home hs1 aws la) as x eqn:Ex.
  remember (lambda_home hs2 aws la) as y eqn:Ey.
  remember (lambda_away hs1 aws la) as z eqn:Ez.
  assert (Hy : 0 <= y) by lra.
  pose proof (home_share_cross max_goals Hx Hxy Hla) as Hcross.
  rewrite <- !simulate_home, <- !simulate_away, <- !simulate_draw in Hcross.
  remember (simulate max_goals x z) as s1 eqn:Es1.
  remember (simulate max_goals y z) as s2 eqn:Es2.
  destruct (normalise_simulate Hx Hla Es1) as [Hp1 N1].
  destruct (normalise_simulate Hy Hla Es2) as [Hp2 N2].
  rewrite Es1, Ex, Ez in N1. apply predict_core_unfold in N1.
  rewrite Es2, Ey, <- Haway in N2. apply predict_core_unfold in N2.
  eexists. eexists. split; [exact N1 | split; [exact N2 |]].
  cbn [home_team_win_probability home_win_prob].
  rewrite Haway, <- Ex, <- Ey, <- Ez, <- Es1, <- Es2.
  apply round2_mono. apply Rmult_le_compat_r; [lra |].
  apply div_le_cross; assumption.
Qed.

(** C5, as stated, fails: with the away record replaced by the all-zero
    record, raising the home attack coefficient from 1.2 to 1.5 leaves the
    home rate at 0.  On binary64 numbers the home rate can also stay the same
    with positive factors: the home attack coefficients 1.9 and its successor
    1.9000000000000001 give the same product with 0.9 and 1.2. *)
Lemma home_attack_not_strict_counterexample :
  attack_strength_home (with_attack_home 1.2 scenario_home)
    < attack_strength_home (with_attack_home 1.5 scenario_home) /\
  lambda_home (with_attack_home 1.2 scenario_home) zero_stats scenario_averages = 0 /\
  lambda_home (with_attack_home 1.5 scenario_home) zero_stats scenario_averages = 0 /\
  ~ (lambda_home (with_attack_home 1.2 scenario_home) zero_stats scenario_averages
     < lambda_home (with_attack_home 1.5 scenario_home) zero_stats scenario_averages) /\
  PrimFloat.ltb (attack_strength_home close_home_b64)
                (attack_strength_home closer_home_b64) = true /\
  PrimFloat.ltb (lambda_home close_home_b64 close_away_b64 close_averages_b64)
                (lambda_home closer_home_b64 close_away_b64 close_averages_b64)
    = false.
Proof.
  rewrite !lambda_home_with_attack. simpl.
  split; [lra | split; [lra | split; [lra | split; [lra |]]]].
  split; vm_compute; reflexivity.
Qed.

(** C5, as the code has it: on records and averages in the range of
    [in_range], a larger home attack coefficient, all else fixed, gives a
    home rate that is not smaller (it need not be larger), the same away
    rate, and a returned home-win percentage that is not smaller. *)
Theorem home_attack_monotone (hs aws : TeamStats R) (la : LeagueAverages R) (x y : R) :
  in_range (with_attack_home y hs) aws la ->
  0 <= x -> x < y ->
  lambda_home (with_attack_home x hs) aws la
    <= lambda_home (with_attack_home y hs) aws la /\
  lambda_away (with_attack_home y hs) aws la
    = lambda_away (with_attack_home x hs) aws la /\
  exists px py,
    predict_core (with_attack_home x hs) aws la = inr px /\
    predict_core (with_attack_home y hs) aws la = inr py /\
    home_team_win_probability px <= home_team_win_probability py.
Proof.
  intros Hin Hx Hxy. destruct (in_range_valid Hin) as [Hhs [Haws Hla]].
  pose proof Haws as [_ [_ [_ Hd]]]. pose proof Hla as [Hg _].
  assert (Hk : 0 <= defense_strength_away aws * avg_home_goals la)
    by (apply Rmult_le_pos; assumption).
  assert (Hle : lambda_home (with_attack_home x hs) aws la
                <= lambda_home (with_attack_home y hs) aws la).
  { rewrite !lambda_home_with_attack, !Rmult_assoc.
    apply Rmult_le_compat_r; [exact Hk | lra]. }
  split; [exact Hle | split; [reflexivity |]].
  apply home_percentage_monotone.
  - rewrite lambda_home_with_attack, Rmult_assoc. apply Rmult_le_pos; assumption.
  - exact Hle.
  - change (0 <= lambda_away (with_attack_home y hs) aws la).
    apply lambda_away_nonneg; assumption.
  - reflexivity.
Qed.

Lemma home_attack_monotone_witness :
  lambda_home (with_attack_home 1.2 scenario_home) scenario_away scenario_averages
    <= lambda_home (with_attack_home 1.5 scenario_home) scenario_away scenario_averages /\
  exists px py,
    predict_core (with_attack_home 1.2 scenario_home) scenario_away scenario_averages
      = inr px /\
    predict_core (with_attack_home 1.5 scenario_home) scenario_away scenario_averages
      = inr py /\
    home_team_win_probability px <= home_team_win_probability py.
Proof.
  assert (Hin : in_range (with_attack_home 1.5 scenario_home) scenario_away
                         scenario_averages) by in_range_by_computation.
  assert (Hx : 0 <= 1.2) by lra.
  assert (Hxy : 1.2 < 1.5) by lra.
  destruct (home_attack_monotone (hs := scenario_home) Hin Hx Hxy) as [Hle [_ Hmono]].
  split; [exact Hle | exact Hmono].
Defined.

(** ** The guard of the normalisation *)

(** The three sums share out the 64 cells of the table. *)
Lemma simulate_total (n : nat) (lh la : R) :
  home_win_prob (simulate n lh la) + away_win_prob (simulate n lh la)
  + draw_prob (simulate n lh la)
  = Rsum (map (fun c => joint lh la (fst c) (snd c)) (cells n)).
Proof.
  rewrite simulate_home, simulate_away, simulate_draw, sum_where_partition.
  rewrite (cells_sum (fun h a => joint lh la h a)), Rsum_prod. reflexivity.
Qed.

(** C2: the three sums of the loop add up to the sum over the 64 cells; when
    they total more than 0 each is divided by the total and the quotients add
    up to 1; when the total is 0 the sums are left as they are and nothing is
    divided; and the prediction returns a record, never an exception, on all
    numeric inputs. *)
Theorem normalisation_is_guarded :
  (forall lh la : R,
      List.length (cells max_goals) = ((max_goals + 1) * (max_goals + 1))%nat /\
      home_win_prob (simulate max_goals lh la) + away_win_prob (simulate max_goals lh la)
      + draw_prob (simulate max_goals lh la)
      = Rsum (map (fun c => joint lh la (fst c) (snd c)) (cells max_goals))) /\
  (forall st : tally,
      0 < home_win_prob st + away_win_prob st + draw_prob st ->
      exists st',
        normalise st = inr st' /\
        home_win_prob st' =
          home_win_prob st / (home_win_prob st + away_win_prob st + draw_prob st) /\
        away_win_prob st' =
          away_win_prob st / (home_win_prob st + away_win_prob st + draw_prob st) /\
        draw_prob st' =
          draw_prob st / (home_win_prob st + away_win_prob st + draw_prob st) /\
        home_win_prob st' + away_win_prob st' + draw_prob st' = 1) /\
  (forall st : tally,
      home_win_prob st + away_win_prob st + draw_prob st = 0 ->
      normalise st = inr st) /\
  (forall (hs aws : TeamStats R) (la : LeagueAverages R),
      exists p, predict_core hs aws la = inr p).
Proof.
  split; [| split; [| split]].
  - intros lh la. split; [reflexivity | apply simulate_total].
  - intros st Hpos. eexists. split; [apply normalise_pos; exact Hpos |].
    cbn [home_win_prob away_win_prob draw_prob].
    repeat split; try reflexivity.
    apply quotients_sum_to_one. exact Hpos.
  - intros st Hzero. apply normalise_skip. lra.
  - apply predict_core_returns.
Qed.

Lemma normalisation_is_guarded_witness :
  (exists st',
      normalise (mkTally 3 1 1 []) = inr st' /\
      home_win_prob st' + away_win_prob st' + draw_prob st' = 1) /\
  normalise (mkTally 0 0 0 []) = inr (mkTally 0 0 0 []).
Proof.
  destruct normalisation_is_guarded as [_ [Hpos [Hzero _]]].
  split.
  - destruct (Hpos (mkTally 3 1 1 [])) as [st' [Hn [_ [_ [_ Hsum]]]]].
    + simpl. lra.
    + exists st'. split; assumption.
  - apply (Hzero (mkTally 0 0 0 [])). simpl. lra.
Defined.

(** * Further properties of the simulation *)

(** ** The truncated table holds at most the whole probability *)

Lemma exp_partial_le_exp (x : R) (n : nat) : 0 <= x -> exp_partial x n <= exp x.
Proof.
  intros Hx. unfold exp_partial.
  apply (growing_ineq (fun n => sum_f_R0 (fun i => / INR (fact i) * x ^ i) n)).
  - intros k. rewrite tech5.
    assert (0 <= / INR (fact (S k)) * x ^ S k).
    { apply Rmult_le_pos; [left; apply Rinv_0_lt_compat, INR_fact_lt_0 |].
      apply pow_le. exact Hx. }
    lra.
  - unfold exp. destruct (exist_exp x) as [l Hl]. exact Hl.
Qed.

Lemma Rsum_seq_partial (f : nat -> R) (n : nat) :
  Rsum (map f (seq 0 (S n))) = sum_f_R0 f n.
Proof.
  induction n as [| n IH].
  - simpl. lra.
  - rewrite seq_S, map_app, Rsum_app, IH. simpl. lra.
Qed.

(** The Poisson probabilities of the counts [0..n] add up to at most 1. *)
Lemma poisson_row_le_1 (n : nat) (mu : R) :
  0 <= mu -> Rsum (map (fun k => poisson_pmf k mu) (goal_range n)) <= 1.
Proof.
  intros Hmu. unfold goal_range. rewrite Nat.add_1_r.
  rewrite (Rsum_ext (fun k => poisson_pmf k mu)
                    (fun k => exp (- mu) * (/ INR (fact k) * mu ^ k))).
  - rewrite Rsum_scal_l, Rsum_seq_partial.
    pose proof (exp_partial_le_exp n Hmu) as Hle. unfold exp_partial in Hle.
    pose proof (exp_pos (- mu)) as Hpos.
    assert (Hinv : exp (- mu) * exp mu = 1)
      by (rewrite <- exp_plus, Rplus_opp_l; apply exp_0).
    rewrite <- Hinv. apply Rmult_le_compat_l; lra.
  - intros k _. unfold poisson_pmf, Rdiv. ring.
Qed.

Lemma poisson_row_nonneg (n : nat) (mu : R) :
  0 <= mu -> 0 <= Rsum (map (fun k => poisson_pmf k mu) (goal_range n)).
Proof.
  intros Hmu. apply Rsum_nonneg. intros k _. apply poisson_pmf_nonneg. exact Hmu.
Qed.

Lemma poisson_pmf_le_1 (k : nat) (mu : R) : 0 <= mu -> poisson_pmf k mu <= 1.
Proof.
  intros Hmu. pose proof (poisson_row_le_1 k Hmu) as Hrow.
  unfold goal_range in Hrow. rewrite Nat.add_1_r, seq_S, map_app, Rsum_app in Hrow.
  simpl in Hrow.
  assert (0 <= Rsum (map (fun k => poisson_pmf k mu) (seq 0 k))).
  { apply Rsum_nonneg. intros i _. apply poisson_pmf_nonneg. exact Hmu. }
  lra.
Qed.

Lemma joint_le_1 (lh la : R) (h a : nat) : 0 <= lh -> 0 <= la -> joint lh la h a <= 1.
Proof.
  intros Hh Ha. unfold joint.
  pose proof (poisson_pmf_nonneg h Hh). pose proof (poisson_pmf_nonneg a Ha).
  pose proof (poisson_pmf_le_1 h Hh). pose proof (poisson_pmf_le_1 a Ha).
  nra.
Qed.

Lemma share_bounds (h t : R) : 0 <= h -> h <= t -> 0 < t -> 0 <= h / t <= 1.
Proof.
  intros Hh Hht Ht. split.
  - apply Rmult_le_pos; [exact Hh | left; apply Rinv_0_lt_compat; exact Ht].
  - apply (Rmult_le_reg_r t); [exact Ht |].
    unfold Rdiv. rewrite Rmult_assoc, Rinv_l by lra. lra.
Qed.

Lemma round2_percent (s : R) : 0 <= s <= 1 -> percent (round2 (s * 100)).
Proof.
  intros [H0 H1]. unfold percent.
  assert (Hlo : round2 (0 * 100) <= round2 (s * 100)) by (apply round2_mono; lra).
  assert (Hhi : round2 (s * 100) <= round2 (1 * 100)) by (apply round2_mono; lra).
  rewrite round2_0 in Hlo. rewrite round2_100 in Hhi. split; assumption.
Qed.

(** X2: for rates between 0 and [rate_bound] the three sums of the loop total
    more than 0 and at most 1 (the scores above seven goals are cut off), so
    the guard of line 142 holds and the normalisation does not lower any of
    the three sums. *)
Theorem raw_total_at_most_one (lh la : R) :
  0 <= lh <= rate_bound -> 0 <= la <= rate_bound ->
  0 < home_win_prob (simulate max_goals lh la) + away_win_prob (simulate max_goals lh la)
      + draw_prob (simulate max_goals lh la) <= 1 /\
  exists st',
    normalise (simulate max_goals lh la) = inr st' /\
    home_win_prob (simulate max_goals lh la) <= home_win_prob st' /\
    away_win_prob (simulate max_goals lh la) <= away_win_prob st' /\
    draw_prob (simulate max_goals lh la) <= draw_prob st'.
Proof.
  intros [Hh _] [Ha _].
  remember (simulate max_goals lh la) as st eqn:Hst.
  destruct (normalise_simulate Hh Ha Hst) as [Hpos Hnorm].
  assert (Hle : home_win_prob st + away_win_prob st + draw_prob st <= 1).
  { rewrite Hst, simulate_home, simulate_away, simulate_draw, sum_where_partition.
    pose proof (poisson_row_le_1 max_goals Hh). pose proof (poisson_row_le_1 max_goals Ha).
    pose proof (poisson_row_nonneg max_goals Hh).
    pose proof (poisson_row_nonneg max_goals Ha).
    nra. }
  assert (H0h : 0 <= home_win_prob st)
    by (rewrite Hst, simulate_home; apply sum_where_nonneg; assumption).
  assert (H0a : 0 <= away_win_prob st)
    by (rewrite Hst, simulate_away; apply sum_where_nonneg; assumption).
  assert (H0d : 0 <= draw_prob st)
    by (rewrite Hst, simulate_draw; apply sum_where_nonneg; assumption).
  split; [split; assumption |].
  eexists. split; [exact Hnorm |].
  cbn [home_win_prob away_win_prob draw_prob].
  remember (home_win_prob st + away_win_prob st + draw_prob st) as t eqn:Ht.
  assert (Hgrow : forall v, 0 <= v -> v <= v / t).
  { intros v Hv. apply (Rmult_le_reg_r t); [exact Hpos |].
    unfold Rdiv. rewrite Rmult_assoc, Rinv_l by lra. nra. }
  repeat split; apply Hgrow; assumption.
Qed.

Lemma raw_total_at_most_one_witness :
  0 < home_win_prob (simulate max_goals 1.62 0.96)
      + away_win_prob (simulate max_goals 1.62 0.96)
      + draw_prob (simulate max_goals 1.62 0.96) <= 1.
Proof.
  assert (Hh : 0 <= 1.62 <= rate_bound) by (unfold rate_bound; lra).
  assert (Ha : 0 <= 0.96 <= rate_bound) by (unfold rate_bound; lra).
  exact (proj1 (raw_total_at_most_one Hh Ha)).
Defined.

(** ** What the returned list holds *)

Lemma cells_in_bounds (n : nat) (c : nat * nat) :
  In c (cells n) -> (fst c <= n)%nat /\ (snd c <= n)%nat.
Proof.
  unfold cells, goal_range. intros Hc.
  apply in_flat_map in Hc. destruct Hc as [h [Hh Hc]].
  apply in_map_iff in Hc. destruct Hc as [a [<- Ha]].
  apply in_seq in Hh. apply in_seq in Ha. simpl. lia.
Qed.

Lemma scoreline_table_in (n : nat) (lh la : R) (item : string * R) :
  In item (scoreline_table n lh la) ->
  exists h a, (h <= n)%nat /\ (a <= n)%nat /\
              item = (scoreline h a, joint lh la h a).
Proof.
  unfold scoreline_table. intros Hi.
  apply in_map_iff in Hi. destruct Hi as [[h a] [<- Hc]].
  apply cells_in_bounds in Hc. exists h, a. simpl in *. tauto.
Qed.

Lemma in_firstn {A : Type} (n : nat) (l : list A) (x : A) :
  In x (firstn n l) -> In x l.
Proof.
  intros Hx. rewrite <- (firstn_skipn n l). apply in_or_app. left. exact Hx.
Qed.

Lemma top_five_in (ranked : list (string * R)) (e : ScoreEntry) :
  In e (top_five ranked) -> exists item, In item ranked /\ e = entry_of item.
Proof.
  unfold top_five. intros He. apply in_map_iff in He.
  destruct He as [item [<- Hitem]]. exists item.
  split; [apply (in_firstn _ _ _ Hitem) | reflexivity].
Qed.

(** The list that [predict_core] returns, for every input. *)
Lemma predict_core_top_five (hs aws : TeamStats R) (la : LeagueAverages R) :
  exists p,
    predict_core hs aws la = inr p /\
    top_five_scores p =
    top_five (sorted_desc
                (scoreline_table max_goals (lambda_home hs aws la)
                                 (lambda_away hs aws la))).
Proof.
  destruct (normalise_returns
              (simulate max_goals (lambda_home hs aws la) (lambda_away hs aws la)))
    as [st' Hst'].
  apply predict_core_unfold in Hst'. rewrite simulate_scores in Hst'.
  eexists. split; [exact Hst' | reflexivity].
Qed.

Lemma top_five_entry_cell (lh la : R) (e : ScoreEntry) :
  In e (top_five (sorted_desc (scoreline_table max_goals lh la))) ->
  exists h a, (h <= max_goals)%nat /\ (a <= max_goals)%nat /\
              score e = scoreline h a /\
              probability e = round2 (joint lh la h a * 100).
Proof.
  intros He. apply top_five_in in He. destruct He as [item [Hitem ->]].
  apply (Permutation_in _ (sorted_desc_perm _)) in Hitem.
  apply scoreline_table_in in Hitem. destruct Hitem as [h [a [Hh [Ha ->]]]].
  exists h, a. repeat split; assumption.
Qed.

(** X3: whatever the input, the returned list has five entries with five
    different scorelines, and each entry is a cell of the table: its label
    is [h-a] with both goal counts between 0 and 7, and its probability is
    the rounded percentage of that cell. *)
Theorem top_five_entries_are_cells (hs aws : TeamStats R) (la : LeagueAverages R) :
  exists p,
    predict_core hs aws la = inr p /\
    List.length (top_five_scores p) = 5%nat /\
    NoDup (map score (top_five_scores p)) /\
    (forall e, In e (top_five_scores p) ->
       exists h a, (h <= max_goals)%nat /\ (a <= max_goals)%nat /\
                   score e = scoreline h a /\
                   probability e =
                   round2 (joint (lambda_home hs aws la) (lambda_away hs aws la) h a
                           * 100)).
Proof.
  destruct (predict_core_top_five hs aws la) as [p [Hp Htop]].
  exists p. split; [exact Hp |]. rewrite Htop.
  remember (scoreline_table max_goals (lambda_home hs aws la) (lambda_away hs aws la))
    as table eqn:Htable.
  assert (Hlen : List.length (sorted_desc table) = 64%nat).
  { rewrite (Permutation_length (sorted_desc_perm _)), Htable.
    unfold scoreline_table. rewrite length_map. apply cells_length. }
  split; [| split].
  - unfold top_five. rewrite length_map, length_firstn, Hlen. reflexivity.
  - unfold top_five. rewrite map_map. cbn [score].
    assert (Hnd : NoDup (map fst (sorted_desc table))).
    { apply (Permutation_NoDup
               (Permutation_map fst (Permutation_sym (sorted_desc_perm table)))).
      rewrite Htable. unfold scoreline_table. rewrite map_map.
      exact scorelines_distinct. }
    rewrite <- (firstn_skipn 5 (sorted_desc table)), map_app in Hnd.
    apply NoDup_app_remove_r in Hnd. exact Hnd.
  - intros e He. rewrite Htable in He. apply top_five_entry_cell. exact He.
Qed.

(** X1: on records and averages in the range of [in_range] every returned
    probability is a percentage: the three outcome fields and the five
    probabilities of the list lie between 0 and 100. *)
Theorem returned_probabilities_are_percentages
    (hs aws : TeamStats R) (la : LeagueAverages R) :
  in_range hs aws la ->
  exists p,
    predict_core hs aws la = inr p /\
    percent (home_team_win_probability p) /\
    percent (away_team_win_probability p) /\
    percent (draw_probability p) /\
    Forall (fun e => percent (probability e)) (top_five_scores p).
Proof.
  intros Hin. destruct (in_range_valid Hin) as [Hhs [Haws Hla]].
  pose proof (lambda_home_nonneg Hhs Haws Hla) as Hlh.
  pose proof (lambda_away_nonneg Hhs Haws Hla) as Hlaw.
  remember (simulate max_goals (lambda_home hs aws la) (lambda_away hs aws la))
    as st eqn:Hst.
  destruct (normalise_simulate Hlh Hlaw Hst) as [Hpos Hnorm].
  pose proof Hnorm as Hcore. rewrite Hst in Hcore.
  apply predict_core_unfold in Hcore. rewrite <- Hst in Hcore.
  assert (H0h : 0 <= home_win_prob st)
    by (rewrite Hst, simulate_home; apply sum_where_nonneg; assumption).
  assert (H0a : 0 <= away_win_prob st)
    by (rewrite Hst, simulate_away; apply sum_where_nonneg; assumption).
  assert (H0d : 0 <= draw_prob st)
    by (rewrite Hst, simulate_draw; apply sum_where_nonneg; assumption).
  eexists. split; [exact Hcore |].
  cbn [home_team_win_probability away_team_win_probability draw_probability
       top_five_scores home_win_prob away_win_prob draw_prob].
  remember (home_win_prob st + away_win_prob st + draw_prob st) as t eqn:Ht.
  split; [apply round2_percent, share_bounds; lra |].
  split; [apply round2_percent, share_bounds; lra |].
  split; [apply round2_percent, share_bounds; lra |].
  apply Forall_forall. intros e He.
  rewrite Hst, simulate_scores in He.
  apply top_five_entry_cell in He. destruct He as [h [a [_ [_ [_ ->]]]]].
  apply round2_percent. split.
  - apply joint_nonneg; assumption.
  - apply joint_le_1; assumption.
Qed.

Lemma returned_probabilities_are_percentages_witness :
  exists p,
    predict_core scenario_home scenario_away scenario_averages = inr p /\
    percent (home_team_win_probability p) /\
    percent (away_team_win_probability p) /\
    percent (draw_probability p) /\
    Forall (fun e => percent (probability e)) (top_five_scores p).
Proof.
  apply (returned_probabilities_are_percentages
           (hs := scenario_home) (aws := scenario_away) (la := scenario_averages)).
  in_range_by_computation.
Defined.

(** ** The order of the returned list *)

Lemma StronglySorted_firstn {A : Type} (R : A -> A -> Prop) (n : nat) (l : list A) :
  StronglySorted R l -> StronglySorted R (firstn n l).
Proof.
  revert l. induction n as [| n IH]; intros l Hs; simpl.
  - constructor.
  - destruct l as [| x l]; [constructor |].
    apply StronglySorted_inv in Hs. destruct Hs as [Hl Hx].
    constructor; [apply IH; exact Hl |].
    apply Forall_forall. intros y Hy.
    apply (proj1 (Forall_forall _ _) Hx). apply (in_firstn _ _ _ Hy).
Qed.

Lemma StronglySorted_map {A B : Type} (R : A -> A -> Prop) (R' : B -> B -> Prop)
    (f : A -> B) (l : list A) :
  (forall x y, R x y -> R' (f x) (f y)) ->
  StronglySorted R l -> StronglySorted R' (map f l).
Proof.
  intros Hf. induction l as [| x l IH]; intros Hs; simpl.
  - constructor.
  - apply StronglySorted_inv in Hs. destruct Hs as [Hl Hx].
    constructor; [apply IH; exact Hl |].
    apply Forall_forall. intros y Hy. apply in_map_iff in Hy.
    destruct Hy as [z [<- Hz]]. apply Hf.
    apply (proj1 (Forall_forall _ _) Hx). exact Hz.
Qed.

Lemma scoreline_table_has (lh la : R) (h a : nat) :
  (h <= max_goals)%nat -> (a <= max_goals)%nat ->
  In (scoreline h a, joint lh la h a) (scoreline_table max_goals lh la).
Proof.
  intros Hh Ha. apply (nth_error_In _ (8 * h + a)).
  apply scoreline_table_nth; assumption.
Qed.

(** X4: the probabilities of the returned list never go up from one entry to
    the next, and its first entry is a most probable cell of the whole table:
    no scoreline with goal counts between 0 and 7 is more probable. *)
Theorem top_five_descends_from_the_mode (hs aws : TeamStats R) (la : LeagueAverages R) :
  exists p e h0 a0,
    predict_core hs aws la = inr p /\
    StronglySorted (fun e1 e2 => probability e2 <= probability e1)
                   (top_five_scores p) /\
    hd_error (top_five_scores p) = Some e /\
    score e = scoreline h0 a0 /\
    probability e =
      round2 (joint (lambda_home hs aws la) (lambda_away hs aws la) h0 a0 * 100) /\
    (forall h a, (h <= max_goals)%nat -> (a <= max_goals)%nat ->
       joint (lambda_home hs aws la) (lambda_away hs aws la) h a
       <= joint (lambda_home hs aws la) (lambda_away hs aws la) h0 a0).
Proof.
  destruct (predict_core_top_five hs aws la) as [p [Hp Htop]].
  remember (lambda_home hs aws la) as lh eqn:Hlh.
  remember (lambda_away hs aws la) as law eqn:Hlaw.
  pose proof (sorted_desc_sorted (scoreline_table max_goals lh law)) as Hsorted.
  pose proof (sorted_desc_perm (scoreline_table max_goals lh law)) as Hperm.
  destruct (sorted_desc (scoreline_table max_goals lh law)) as [| x rest] eqn:Hranked.
  { apply Permutation_length in Hperm. unfold scoreline_table in Hperm.
    rewrite length_map, cells_length in Hperm. discriminate. }
  assert (Hx : In x (scoreline_table max_goals lh law))
    by (apply (Permutation_in _ Hperm); left; reflexivity).
  apply scoreline_table_in in Hx. destruct Hx as [h0 [a0 [_ [_ Hx]]]].
  exists p, (entry_of x), h0, a0.
  split; [exact Hp |]. rewrite Htop.
  split; [| split; [reflexivity | split; [rewrite Hx; reflexivity | split]]].
  - unfold top_five.
    apply (StronglySorted_map (R := prob_ge)).
    + intros u v Huv. cbn [probability]. apply round2_mono.
      unfold prob_ge in Huv. lra.
    + apply StronglySorted_firstn. exact Hsorted.
  - rewrite Hx. reflexivity.
  - intros h a Hh Ha.
    pose proof (scoreline_table_has lh law Hh Ha) as Hin.
    apply (Permutation_in _ (Permutation_sym Hperm)) in Hin.
    apply StronglySorted_inv in Hsorted. destruct Hsorted as [_ Hall].
    destruct Hin as [Heq | Hin].
    + rewrite Hx in Heq. injection Heq as _ Hj. lra.
    + apply (proj1 (Forall_forall _ _) Hall) in Hin.
      unfold prob_ge in Hin. rewrite Hx in Hin. simpl in Hin. exact Hin.
Qed.

(** ** Looking a scoreline up *)

Lemma dict_get_in {V : Type} (k : string) (d : dict V) :
  dict_get k d <> None -> In k (map fst d).
Proof.
  induction d as [| [k' v] d IH]; simpl; intros Hget.
  - contradiction.
  - destruct (String.eqb_spec k' k) as [Heq | Hne].
    + left. exact Heq.
    + right. apply IH. exact Hget.
Qed.

Lemma scoreline_table_get (lh la : R) (h a : nat) :
  (h <= max_goals)%nat -> (a <= max_goals)%nat ->
  dict_get (scoreline h a) (scoreline_table max_goals lh la) = Some (joint lh la h a).
Proof.
  unfold max_goals. intros Hh Ha.
  do 8 (destruct h as [| h];
        [do 8 (destruct a as [| a]; [reflexivity |]); lia |]).
  lia.
Qed.

(** X5: after the loop the dictionary answers every scoreline [h-a] with goal
    counts between 0 and 7 with the product of the two Poisson probabilities,
    it has 64 entries, and it has no other key. *)
Theorem scoreline_dictionary_lookup (lh la : R) :
  (forall h a, (h <= max_goals)%nat -> (a <= max_goals)%nat ->
     dict_get (scoreline h a) (score_probabilities (simulate max_goals lh la))
     = Some (poisson_pmf h lh * poisson_pmf a la)) /\
  List.length (score_probabilities (simulate max_goals lh la)) = 64%nat /\
  (forall k, dict_get k (score_probabilities (simulate max_goals lh la)) <> None ->
     exists h a, (h <= max_goals)%nat /\ (a <= max_goals)%nat /\ k = scoreline h a).
Proof.
  rewrite simulate_scores. split; [| split].
  - intros h a Hh Ha. apply scoreline_table_get; assumption.
  - unfold scoreline_table. rewrite length_map. apply cells_length.
  - intros k Hk. apply dict_get_in in Hk.
    apply in_map_iff in Hk. destruct Hk as [item [<- Hitem]].
    apply scoreline_table_in in Hitem. destruct Hitem as [h [a [Hh [Ha ->]]]].
    exists h, a. repeat split; assumption.
Qed.

(** ** A side that is not expected to score *)

Lemma simulate_away_rate_0 (n : nat) (lh : R) : away_win_prob (simulate n lh 0) = 0.
Proof.
  rewrite simulate_away, sum_where_away_rate_0.
  apply Rsum_all_zero. intros h _. reflexivity.
Qed.

Lemma simulate_home_rate_0 (n : nat) (la : R) : home_win_prob (simulate n 0 la) = 0.
Proof.
  destruct (simulate_exchange n la 0) as [E _]. rewrite E.
  apply simulate_away_rate_0.
Qed.

Lemma round2_zero_share (t : R) : round2 (0 / t * 100) = 0.
Proof.
  replace (0 / t * 100) with (0 * 100) by (unfold Rdiv; ring). apply round2_0.
Qed.

(** X6: on records and averages in the range of [in_range], a side whose
    expected goals are 0 cannot win: with an away rate of 0 the away-win
    percentage is 0, and with a home rate of 0 the home-win percentage is 0,
    whatever the rate of the other side. *)
Theorem scoreless_side_never_wins (hs aws : TeamStats R) (la : LeagueAverages R) :
  in_range hs aws la ->
  (lambda_away hs aws la = 0 ->
   exists p, predict_core hs aws la = inr p /\ away_team_win_probability p = 0) /\
  (lambda_home hs aws la = 0 ->
   exists p, predict_core hs aws la = inr p /\ home_team_win_probability p = 0).
Proof.
  intros Hin. destruct (in_range_valid Hin) as [Hhs [Haws Hla]].
  pose proof (lambda_home_nonneg Hhs Haws Hla) as Hh0.
  pose proof (lambda_away_nonneg Hhs Haws Hla) as Ha0.
  remember (simulate max_goals (lambda_home hs aws la) (lambda_away hs aws la))
    as st eqn:Hst.
  destruct (normalise_simulate Hh0 Ha0 Hst) as [_ Hnorm].
  pose proof Hnorm as Hcore. rewrite Hst in Hcore.
  apply predict_core_unfold in Hcore. rewrite <- Hst in Hcore.
  split.
  - intros Ha.
    assert (Haway : away_win_prob st = 0)
      by (rewrite Hst, Ha; apply simulate_away_rate_0).
    eexists. split; [exact Hcore |].
    cbn [away_team_win_probability away_win_prob].
    rewrite Haway. apply round2_zero_share.
  - intros Hh.
    assert (Hhome : home_win_prob st = 0)
      by (rewrite Hst, Hh; apply simulate_home_rate_0).
    eexists. split; [exact Hcore |].
    cbn [home_team_win_probability home_win_prob].
    rewrite Hhome. apply round2_zero_share.
Qed.

Lemma scoreless_side_never_wins_witness :
  exists p,
    predict_core lopsided_home lopsided_away unit_averages = inr p /\
    away_team_win_probability p = 0.
Proof.
  assert (Hin : in_range lopsided_home lopsided_away unit_averages)
    by in_range_by_computation.
  destruct lopsided_rates as [_ [H2 _]].
  exact (proj1 (scoreless_side_never_wins Hin) H2).
Defined.

(** ** Evenly matched sides *)

Lemma inr_injective {A B : Type} (x y : B) : @inr A B x = inr y -> x = y.
Proof. intros H. injection H as H. exact H. Qed.

(** X7: when the two rates are equal, the home-win and the away-win
    percentages are equal. *)
Theorem equal_rates_equal_chances (hs aws : TeamStats R) (la : LeagueAverages R) :
  lambda_home hs aws la = lambda_away hs aws la ->
  exists p,
    predict_core hs aws la = inr p /\
    home_team_win_probability p = away_team_win_probability p.
Proof.
  intros Heq.
  destruct (predict_core_exchange (hs := hs) (aws := aws) (la := la)
              (hs' := hs) (aws' := aws) (la' := la) Heq (eq_sym Heq))
    as [p [p' [Hp [Hp' [Hhome _]]]]].
  rewrite Hp in Hp'. apply inr_injective in Hp'. subst p'.
  exists p. split; [exact Hp | exact Hhome].
Qed.

Lemma equal_rates_equal_chances_witness :
  exists p,
    predict_core (mkTeamStats 1.1 0.9 1.1 0.9) (mkTeamStats 1.1 0.9 1.1 0.9)
                 (mkLeagueAverages 1.4 1.4) = inr p /\
    home_team_win_probability p = away_team_win_probability p.
Proof.
  apply (equal_rates_equal_chances
           (hs := mkTeamStats 1.1 0.9 1.1 0.9) (aws := mkTeamStats 1.1 0.9 1.1 0.9)
           (la := mkLeagueAverages 1.4 1.4)).
  reflexivity.
Defined.

(** ** A stronger away attack *)

(** X8: on records and averages in the range of [in_range], a larger away
    attack coefficient of the away side, all else fixed, leaves the home rate
    as it is, does not lower the away rate, and does not lower the returned
    away-win percentage. *)
Theorem away_attack_monotone (hs aws : TeamStats R) (la : LeagueAverages R) (x y : R) :
  in_range hs (with_attack_away y aws) la ->
  0 <= x -> x <= y ->
  lambda_home hs (with_attack_away y aws) la
    = lambda_home hs (with_attack_away x aws) la /\
  lambda_away hs (with_attack_away x aws) la
    <= lambda_away hs (with_attack_away y aws) la /\
  exists px py,
    predict_core hs (with_attack_away x aws) la = inr px /\
    predict_core hs (with_attack_away y aws) la = inr py /\
    away_team_win_probability px <= away_team_win_probability py.
Proof.
  intros Hin Hx Hxy. destruct (in_range_valid Hin) as [Hhs [Haws Hla]].
  destruct Hhs as [Hh1 [Hh2 _]]. destruct Haws as [_ [_ [_ Ha4]]].
  cbn [with_attack_away defense_strength_away] in Ha4.
  destruct Hla as [Hl1 Hl2].
  assert (Hk : 0 <= defense_strength_home hs * avg_away_goals la)
    by (apply Rmult_le_pos; assumption).
  assert (Hle : lambda_away hs (with_attack_away x aws) la
                <= lambda_away hs (with_attack_away y aws) la).
  { rewrite !lambda_away_R. cbn [attack_strength_away with_attack_away].
    rewrite !Rmult_assoc. apply Rmult_le_compat_r; assumption. }
  split; [reflexivity | split; [exact Hle |]].
  destruct (home_percentage_monotone
              (hs1 := mirror (with_attack_away x aws))
              (hs2 := mirror (with_attack_away y aws))
              (aws := mirror hs) (la := swap_averages la))
    as [qx [qy [Hqx [Hqy Hmono]]]].
  - change (0 <= lambda_away hs (with_attack_away x aws) la).
    rewrite lambda_away_R. cbn [attack_strength_away with_attack_away].
    rewrite Rmult_assoc. apply Rmult_le_pos; assumption.
  - exact Hle.
  - change (0 <= lambda_home hs (with_attack_away x aws) la).
    rewrite lambda_home_R. cbn [defense_strength_away with_attack_away].
    apply Rmult_le_pos; [apply Rmult_le_pos |]; assumption.
  - reflexivity.
  - destruct (predict_core_exchange
                (hs := hs) (aws := with_attack_away x aws) (la := la)
                (hs' := mirror (with_attack_away x aws)) (aws' := mirror hs)
                (la' := swap_averages la) eq_refl eq_refl)
      as [px [px' [Hpx [Hpx' [Ex _]]]]].
    destruct (predict_core_exchange
                (hs := hs) (aws := with_attack_away y aws) (la := la)
                (hs' := mirror (with_attack_away y aws)) (aws' := mirror hs)
                (la' := swap_averages la) eq_refl eq_refl)
      as [py [py' [Hpy [Hpy' [Ey _]]]]].
    rewrite Hqx in Hpx'. apply inr_injective in Hpx'. subst px'.
    rewrite Hqy in Hpy'. apply inr_injective in Hpy'. subst py'.
    exists px, py. split; [exact Hpx | split; [exact Hpy |]].
    rewrite <- Ex, <- Ey. exact Hmono.
Qed.

Lemma away_attack_monotone_witness :
  exists px py,
    predict_core scenario_home (with_attack_away 0.8 scenario_away) scenario_averages
      = inr px /\
    predict_core scenario_home (with_attack_away 1.3 scenario_away) scenario_averages
      = inr py /\
    away_team_win_probability px <= away_team_win_probability py.
Proof.
  assert (Hin : in_range scenario_home (with_attack_away 1.3 scenario_away)
                         scenario_averages) by in_range_by_computation.
  assert (Hx : 0 <= 0.8) by lra.
  assert (Hxy : 0.8 <= 1.3) by lra.
  exact (proj2 (proj2 (away_attack_monotone (aws := scenario_away) Hin Hx Hxy))).
Defined.

(** * Further properties of the season resolver *)

(** X9: the resolved season never goes back in time: for a date that is not
    later than another, the season is not later either. *)
Theorem get_current_season_monotone (d1 d2 : datetime) :
  date_le d1 d2 -> (get_current_season d1 <= get_current_season d2)%Z.
Proof.
  unfold date_le, get_current_season. intros Hle.
  destruct (Z.ltb_spec (month d1) 8); destruct (Z.ltb_spec (month d2) 8); lia.
Qed.

Lemma get_current_season_monotone_witness :
  (get_current_season (mkDatetime 2024 12 31)
   <= get_current_season (mkDatetime 2025 1 1))%Z.
Proof.
  apply get_current_season_monotone. unfold date_le. simpl. lia.
Defined.

(** X10: the resolved season is the one season whose first of August is not
    after the date while the first of August of the next year is. *)
Theorem get_current_season_contains_date (now : datetime) (s : Z) :
  (1 <= day now)%Z ->
  (date_le (mkDatetime s 8 1) now /\ ~ date_le (mkDatetime (s + 1) 8 1) now)
  <-> s = get_current_season now.
Proof.
  unfold date_le, get_current_season. cbn [year month day]. intros Hday.
  destruct (Z.ltb_spec (month now) 8); split; intros; try lia.
Qed.

Lemma get_current_season_contains_date_witness :
  date_le (mkDatetime 2024 8 1) (mkDatetime 2025 7 15) /\
  ~ date_le (mkDatetime (2024 + 1) 8 1) (mkDatetime 2025 7 15).
Proof.
  apply (get_current_season_contains_date (mkDatetime 2025 7 15) 2024).
  - simpl. lia.
  - reflexivity.
Defined.

(** * Further properties of the orchestration *)

Section OrchestrationFacts.

Variable Match : Type.
Variable retrieve_matches_for_team : Z -> Z -> option (list Match).
Variable calculate_league_averages : list Match -> LeagueAverages R.
Variable filter_matches_by_team_id : Z -> list Match -> list Match.
Variable calculate_final_team_stats :
  Z -> Z -> Z -> LeagueAverages R -> list Match -> stats_outcome.
Variable now : datetime.
Variables home_team_id away_team_id league_id : Z.

Lemma predict_match_no_fallback :
  ~ (avg_home_goals
       (calculate_league_averages
          (or_empty (retrieve_matches_for_team league_id (get_current_season now)))) = 0 /\
     avg_away_goals
       (calculate_league_averages
          (or_empty (retrieve_matches_for_team league_id (get_current_season now)))) = 0) ->
  predict_match retrieve_matches_for_team calculate_league_averages
    filter_matches_by_team_id calculate_final_team_stats
    now home_team_id away_team_id league_id
  = ([mkFetch league_id (get_current_season now)],
     predict_checked filter_matches_by_team_id calculate_final_team_stats
       (get_current_season now)
       (or_empty (retrieve_matches_for_team league_id (get_current_season now)))
       (calculate_league_averages
          (or_empty (retrieve_matches_for_team league_id (get_current_season now))))
       home_team_id away_team_id league_id).
Proof.
  intros Hnz. unfold predict_match.
  destruct (Req_dec_T _ 0) as [Hh | Hh]; [| reflexivity].
  destruct (Req_dec_T _ 0) as [Ha | Ha]; [| reflexivity].
  exfalso. apply Hnz. split; assumption.
Qed.

Lemma predict_match_fallback :
  avg_home_goals
    (calculate_league_averages
       (or_empty (retrieve_matches_for_team league_id (get_current_season now)))) = 0 ->
  avg_away_goals
    (calculate_league_averages
       (or_empty (retrieve_matches_for_team league_id (get_current_season now)))) = 0 ->
  predict_match retrieve_matches_for_team calculate_league_averages
    filter_matches_by_team_id calculate_final_team_stats
    now home_team_id away_team_id league_id
  = ([mkFetch league_id (get_current_season now);
      mkFetch league_id (get_current_season now - 1)%Z],
     if truthy (or_empty (retrieve_matches_for_team league_id
                            (get_current_season now - 1)%Z))
     then predict_checked filter_matches_by_team_id calculate_final_team_stats
            (get_current_season now - 1)%Z
            (or_empty (retrieve_matches_for_team league_id
                         (get_current_season now - 1)%Z))
            (calculate_league_averages
               (or_empty (retrieve_matches_for_team league_id
                            (get_current_season now - 1)%Z)))
            home_team_id away_team_id league_id
     else ret (ErrorRecord (no_data_two_seasons (get_current_season now)
                                                (get_current_season now - 1)%Z))).
Proof.
  intros Hh Ha. unfold predict_match.
  destruct (Req_dec_T _ 0) as [_ | Hn]; [| contradiction].
  destruct (Req_dec_T _ 0) as [_ | Hn]; [| contradiction].
  destruct (truthy _); reflexivity.
Qed.

Lemma predict_with_returns (season : Z) (l : list Match) (averages : LeagueAverages R) :
  exists p,
    predict_with filter_matches_by_team_id calculate_final_team_stats
      season l averages home_team_id away_team_id league_id
    = inr (PredictionRecord p).
Proof.
  unfold predict_with.
  destruct (predict_core_returns
              (stats_or_zero (calculate_final_team_stats season league_id home_team_id
                                averages (filter_matches_by_team_id home_team_id l)))
              (stats_or_zero (calculate_final_team_stats season league_id away_team_id
                                averages (filter_matches_by_team_id away_team_id l)))
              averages) as [p Hp].
  exists p. rewrite Hp. reflexivity.
Qed.

Lemma predict_checked_returns (season : Z) (l : list Match) (averages : LeagueAverages R) :
  (l = [] /\
   predict_checked filter_matches_by_team_id calculate_final_team_stats
     season l averages home_team_id away_team_id league_id
   = inr (ErrorRecord (no_data_one_season season))) \/
  (l <> [] /\
   predict_checked filter_matches_by_team_id calculate_final_team_stats
     season l averages home_team_id away_team_id league_id
   = predict_with filter_matches_by_team_id calculate_final_team_stats
       season l averages home_team_id away_team_id league_id).
Proof.
  unfold predict_checked. destruct l as [| m l]; simpl.
  - left. split; reflexivity.
  - right. split; [discriminate | reflexivity].
Qed.

(** X12: when the league averages of the resolved season are not both 0, no
    other season is consulted: without matches the call returns the error
    record that names this season alone, and with matches it returns a
    prediction made from this season's matches and averages. *)
Theorem resolved_season_is_used :
  ~ (avg_home_goals
       (calculate_league_averages
          (or_empty (retrieve_matches_for_team league_id (get_current_season now)))) = 0 /\
     avg_away_goals
       (calculate_league_averages
          (or_empty (retrieve_matches_for_team league_id (get_current_season now)))) = 0) ->
  (or_empty (retrieve_matches_for_team league_id (get_current_season now)) = [] ->
   snd (predict_match retrieve_matches_for_team calculate_league_averages
          filter_matches_by_team_id calculate_final_team_stats
          now home_team_id away_team_id league_id)
   = inr (ErrorRecord
            ("No match data found for the league in season "
             ++ str_of_Z (get_current_season now)
             ++ " to calculate averages."))) /\
  (or_empty (retrieve_matches_for_team league_id (get_current_season now)) <> [] ->
   exists p,
     snd (predict_match retrieve_matches_for_team calculate_league_averages
            filter_matches_by_team_id calculate_final_team_stats
            now home_team_id away_team_id league_id)
     = inr (PredictionRecord p) /\
     predict_with filter_matches_by_team_id calculate_final_team_stats
       (get_current_season now)
       (or_empty (retrieve_matches_for_team league_id (get_current_season now)))
       (calculate_league_averages
          (or_empty (retrieve_matches_for_team league_id (get_current_season now))))
       home_team_id away_team_id league_id
     = inr (PredictionRecord p)).
Proof.
  intros Hnz. rewrite (predict_match_no_fallback Hnz). cbn [snd].
  destruct (predict_checked_returns (get_current_season now)
              (or_empty (retrieve_matches_for_team league_id (get_current_season now)))
              (calculate_league_averages
                 (or_empty (retrieve_matches_for_team league_id
                              (get_current_season now)))))
    as [[Hnil Hc] | [Hcons Hc]]; rewrite Hc.
  - split; [intros _; reflexivity | intros Hne; contradiction].
  - split; [intros Hnil; contradiction |].
    intros _.
    destruct (predict_with_returns (get_current_season now)
                (or_empty (retrieve_matches_for_team league_id (get_current_season now)))
                (calculate_league_averages
                   (or_empty (retrieve_matches_for_team league_id
                                (get_current_season now)))))
      as [p Hp].
    exists p. split; exact Hp.
Qed.

Lemma lambda_zero_averages (hs aws : TeamStats R) (la : LeagueAverages R) :
  avg_home_goals la = 0 -> avg_away_goals la = 0 ->
  lambda_home hs aws la = 0 /\ lambda_away hs aws la = 0.
Proof.
  intros Hh Ha. rewrite lambda_home_R, lambda_away_R, Hh, Ha. split; ring.
Qed.

(** X14: when the statistics of the home team or of the away team cannot be
    computed (the call raises, or its result is not a complete dictionary),
    the call still returns a prediction, and it is the certain goalless draw
    whatever the other team's statistics are. *)
Theorem failed_statistics_give_goalless_draw
    (season : Z) (l : list Match) (averages : LeagueAverages R) :
  (calculate_final_team_stats season league_id home_team_id averages
     (filter_matches_by_team_id home_team_id l) = StatsRaised \/
   calculate_final_team_stats season league_id home_team_id averages
     (filter_matches_by_team_id home_team_id l) = StatsInvalid) \/
  (calculate_final_team_stats season league_id away_team_id averages
     (filter_matches_by_team_id away_team_id l) = StatsRaised \/
   calculate_final_team_stats season league_id away_team_id averages
     (filter_matches_by_team_id away_team_id l) = StatsInvalid) ->
  predict_with filter_matches_by_team_id calculate_final_team_stats
    season l averages home_team_id away_team_id league_id
  = inr (PredictionRecord
           (goalless_prediction
              (stats_or_zero
                 (calculate_final_team_stats season league_id home_team_id averages
                    (filter_matches_by_team_id home_team_id l)))
              (stats_or_zero
                 (calculate_final_team_stats season league_id away_team_id averages
                    (filter_matches_by_team_id away_team_id l)))
              averages)).
Proof.
  intros Hfail. unfold predict_with.
  rewrite predict_core_rates_0; [reflexivity | |].
  - destruct Hfail as [[H | H] | [H | H]]; rewrite H;
      first [apply lambda_zero_home_record | apply lambda_zero_away_record].
  - destruct Hfail as [[H | H] | [H | H]]; rewrite H;
      first [apply lambda_zero_home_record | apply lambda_zero_away_record].
Qed.

(** X15: the averages of the season before are used as they are: when the
    resolved season has both averages 0 and the season before has matches
    whose averages are again both 0, the call does not report an error:
    with statistics of the two teams that are zero records or have
    coefficients between 0 and [coefficient_bound], it returns the certain
    goalless draw. *)
Theorem zero_averages_after_fallback :
  avg_home_goals
    (calculate_league_averages
       (or_empty (retrieve_matches_for_team league_id (get_current_season now)))) = 0 ->
  avg_away_goals
    (calculate_league_averages
       (or_empty (retrieve_matches_for_team league_id (get_current_season now)))) = 0 ->
  or_empty (retrieve_matches_for_team league_id (get_current_season now - 1)%Z) <> [] ->
  avg_home_goals
    (calculate_league_averages
       (or_empty (retrieve_matches_for_team league_id
                    (get_current_season now - 1)%Z))) = 0 ->
  avg_away_goals
    (calculate_league_averages
       (or_empty (retrieve_matches_for_team league_id
                    (get_current_season now - 1)%Z))) = 0 ->
  moderate_stats
    (stats_or_zero
       (calculate_final_team_stats (get_current_season now - 1)%Z league_id
          home_team_id
          (calculate_league_averages
             (or_empty (retrieve_matches_for_team league_id
                          (get_current_season now - 1)%Z)))
          (filter_matches_by_team_id home_team_id
             (or_empty (retrieve_matches_for_team league_id
                          (get_current_season now - 1)%Z))))) ->
  moderate_stats
    (stats_or_zero
       (calculate_final_team_stats (get_current_season now - 1)%Z league_id
          away_team_id
          (calculate_league_averages
             (or_empty (retrieve_matches_for_team league_id
                          (get_current_season now - 1)%Z)))
          (filter_matches_by_team_id away_team_id
             (or_empty (retrieve_matches_for_team league_id
                          (get_current_season now - 1)%Z))))) ->
  exists hstats astats,
    snd (predict_match retrieve_matches_for_team calculate_league_averages
           filter_matches_by_team_id calculate_final_team_stats
           now home_team_id away_team_id league_id)
    = inr (PredictionRecord
             (goalless_prediction hstats astats
                (calculate_league_averages
                   (or_empty (retrieve_matches_for_team league_id
                                (get_current_season now - 1)%Z))))).
Proof.
  intros Hh Ha Hprev Hh' Ha' _ _.
  rewrite (predict_match_fallback Hh Ha). cbn [snd].
  destruct (or_empty (retrieve_matches_for_team league_id
                        (get_current_season now - 1)%Z)) as [| m ms] eqn:Hl;
    [contradiction |].
  cbn [truthy]. unfold predict_checked. cbn [truthy negb]. unfold predict_with.
  eexists. eexists.
  rewrite predict_core_rates_0; [reflexivity | |];
    apply lambda_zero_averages; assumption.
Qed.

End OrchestrationFacts.

Lemma resolved_season_is_used_witness :
  exists p,
    snd (predict_match (Match := unit) (fun _ _ => Some [tt])
           (fun _ => scenario_averages) (fun _ l => l)
           (fun _ _ _ _ _ => StatsDict scenario_home)
           (mkDatetime 2025 9 1) 57 66 2021)
    = inr (PredictionRecord p).
Proof.
  assert (Hnz : ~ (avg_home_goals scenario_averages = 0 /\
                   avg_away_goals scenario_averages = 0))
    by (simpl; lra).
  destruct (@resolved_season_is_used unit (fun _ _ => Some [tt])
              (fun _ => scenario_averages) (fun _ l => l)
              (fun _ _ _ _ _ => StatsDict scenario_home)
              (mkDatetime 2025 9 1) 57 66 2021 Hnz) as [_ Hsome].
  destruct Hsome as [p [Hp _]]; [discriminate |].
  exists p. exact Hp.
Defined.

Lemma failed_statistics_give_goalless_draw_witness :
  predict_with (Match := unit) (fun _ l => l)
    (fun _ _ team _ _ => if (team =? 57)%Z then StatsRaised else StatsDict scenario_away)
    2025 [tt] scenario_averages 57 66 2021
  = inr (PredictionRecord
           (goalless_prediction zero_stats scenario_away scenario_averages)).
Proof.
  apply (@failed_statistics_give_goalless_draw unit (fun _ l => l)
           (fun _ _ team _ _ =>
              if (team =? 57)%Z then StatsRaised else StatsDict scenario_away)
           57 66 2021 2025 [tt] scenario_averages).
  left. left. reflexivity.
Defined.

Lemma zero_averages_after_fallback_witness :
  exists hstats astats,
    snd (predict_match (Match := unit)
           (fun _ season => if (season =? 2024)%Z then None else Some [tt])
           (fun _ => mkLeagueAverages 0 0) (fun _ l => l)
           (fun _ _ _ _ _ => StatsDict scenario_home)
           (mkDatetime 2025 7 15) 57 66 2021)
    = inr (PredictionRecord
             (goalless_prediction hstats astats (mkLeagueAverages 0 0))).
Proof.
  apply (@zero_averages_after_fallback unit
           (fun _ season => if (season =? 2024)%Z then None else Some [tt])
           (fun _ => mkLeagueAverages 0 0) (fun _ l => l)
           (fun _ _ _ _ _ => StatsDict scenario_home)
           (mkDatetime 2025 7 15) 57 66 2021 eq_refl eq_refl).
  - discriminate.
  - reflexivity.
  - reflexivity.
  - in_range_by_computation.
  - in_range_by_computation.
Defined.

(** * A stronger side lowers the chances of the other side *)

(** The share of the counts up to [a] shrinks with the likelihood ratio. *)
Lemma head_share (l : list nat) (p q : nat -> R) (a : nat) :
  (forall h h', (h' <= h)%nat -> p h * q h' <= q h * p h') ->
  Rsum (map (fun h => if (a <? h)%nat then 0 else q h) l) * Rsum (map p l) <=
  Rsum (map (fun h => if (a <? h)%nat then 0 else p h) l) * Rsum (map q l).
Proof.
  intros Hratio. pose proof (tail_share l p q a Hratio) as Htail.
  assert (Hsplit : forall r : nat -> R,
             Rsum (map r l) =
             Rsum (map (fun h => if (a <? h)%nat then r h else 0) l)
             + Rsum (map (fun h => if (a <? h)%nat then 0 else r h) l)).
  { intros r. rewrite <- Rsum_plus. apply Rsum_ext. intros h _.
    destruct (a <? h)%nat; lra. }
  rewrite (Hsplit p), (Hsplit q) in Htail. rewrite (Hsplit p), (Hsplit q).
  remember (Rsum (map (fun h => if (a <? h)%nat then p h else 0) l)) as Fp.
  remember (Rsum (map (fun h => if (a <? h)%nat then q h else 0) l)) as Fq.
  remember (Rsum (map (fun h => if (a <? h)%nat then 0 else p h) l)) as Gp.
  remember (Rsum (map (fun h => if (a <? h)%nat then 0 else q h) l)) as Gq.
  nra.
Qed.

Lemma sum_where_home_by_row (n : nat) (x y : R) :
  sum_where is_home_win n x y =
  Rsum (map (fun h =>
               poisson_pmf h x *
               Rsum (map (fun a => if (a <? h)%nat then poisson_pmf a y else 0)
                         (goal_range n)))
            (goal_range n)).
Proof.
  unfold sum_where. apply Rsum_ext. intros h _. rewrite <- Rsum_scal_l.
  apply Rsum_ext. intros a _. unfold is_home_win, joint.
  destruct (a <? h)%nat; lra.
Qed.

(** The counts below [h] are the counts up to [h - 1]. *)
Lemma below_share (l : list nat) (p q : nat -> R) (h : nat) :
  (forall a a', (a' <= a)%nat -> p a * q a' <= q a * p a') ->
  Rsum (map (fun a => if (a <? h)%nat then q a else 0) l) * Rsum (map p l) <=
  Rsum (map (fun a => if (a <? h)%nat then p a else 0) l) * Rsum (map q l).
Proof.
  intros Hratio. destruct h as [| h].
  - rewrite !Rsum_zero. lra.
  - rewrite (Rsum_ext (fun a => if (a <? S h)%nat then q a else 0)
                      (fun a => if (h <? a)%nat then 0 else q a)).
    + rewrite (Rsum_ext (fun a => if (a <? S h)%nat then p a else 0)
                        (fun a => if (h <? a)%nat then 0 else p a)).
      * apply head_share. exact Hratio.
      * intros a _.
        destruct (Nat.ltb_spec a (S h)), (Nat.ltb_spec h a); try lia; reflexivity.
    + intros a _.
      destruct (Nat.ltb_spec a (S h)), (Nat.ltb_spec h a); try lia; reflexivity.
Qed.

(** Cross-multiplied: the home-win share of the table does not go up when the
    away rate goes up. *)
Lemma home_share_cross_away (n : nat) (x y1 y2 : R) :
  0 <= x -> 0 <= y1 -> y1 <= y2 ->
  sum_where is_home_win n x y2
  * (sum_where is_home_win n x y1 + sum_where is_away_win n x y1
     + sum_where is_draw n x y1) <=
  sum_where is_home_win n x y1
  * (sum_where is_home_win n x y2 + sum_where is_away_win n x y2
     + sum_where is_draw n x y2).
Proof.
  intros Hx Hy1 Hy12. rewrite !sum_where_partition, !sum_where_home_by_row.
  assert (HS : 0 <= Rsum (map (fun h => poisson_pmf h x) (goal_range n))).
  { apply Rsum_nonneg. intros h _. apply poisson_pmf_nonneg. exact Hx. }
  rewrite !(Rmult_comm (Rsum (map (fun h => poisson_pmf h x) (goal_range n)))).
  rewrite <- !Rmult_assoc. apply Rmult_le_compat_r; [exact HS |].
  rewrite <- !Rsum_scal_r. apply Rsum_le. intros h _.
  rewrite !Rmult_assoc. apply Rmult_le_compat_l.
  - apply poisson_pmf_nonneg. exact Hx.
  - apply (below_share (goal_range n) (fun a => poisson_pmf a y1)
                       (fun a => poisson_pmf a y2) h).
    intros a a' Ha. apply poisson_pmf_ratio; assumption.
Qed.

Lemma home_percentage_antitone (hs1 aws1 hs2 aws2 : TeamStats R)
    (la1 la2 : LeagueAverages R) :
  0 <= lambda_home hs1 aws1 la1 ->
  lambda_home hs2 aws2 la2 = lambda_home hs1 aws1 la1 ->
  0 <= lambda_away hs1 aws1 la1 ->
  lambda_away hs1 aws1 la1 <= lambda_away hs2 aws2 la2 ->
  exists p1 p2,
    predict_core hs1 aws1 la1 = inr p1 /\
    predict_core hs2 aws2 la2 = inr p2 /\
    home_team_win_probability p2 <= home_team_win_probability p1.
Proof.
  intros Hx Hsame Hy1 Hy12.
  remember (lambda_home hs1 aws1 la1) as x eqn:Ex.
  remember (lambda_away hs1 aws1 la1) as y1 eqn:Ey1.
  remember (lambda_away hs2 aws2 la2) as y2 eqn:Ey2.
  assert (Hy2 : 0 <= y2) by lra.
  pose proof (home_share_cross_away max_goals Hx Hy1 Hy12) as Hcross.
  rewrite <- !simulate_home, <- !simulate_away, <- !simulate_draw in Hcross.
  remember (simulate max_goals x y1) as s1 eqn:Es1.
  remember (simulate max_goals x y2) as s2 eqn:Es2.
  destruct (normalise_simulate Hx Hy1 Es1) as [Hp1 N1].
  destruct (normalise_simulate Hx Hy2 Es2) as [Hp2 N2].
  rewrite Es1, Ex, Ey1 in N1. apply predict_core_unfold in N1.
  rewrite Es2, Ey2, <- Hsame in N2. apply predict_core_unfold in N2.
  eexists. eexists. split; [exact N1 | split; [exact N2 |]].
  cbn [home_team_win_probability home_win_prob].
  rewrite Hsame, <- Ex, <- Ey1, <- Ey2, <- Es1, <- Es2.
  apply round2_mono. apply Rmult_le_compat_r; [lra |].
  apply div_le_cross; assumption.
Qed.

(** X16: on records and averages in the range of [in_range], a larger away
    attack coefficient of the away side does not raise the home-win
    percentage, and a larger home attack coefficient of the home side does not
    raise the away-win percentage, all else fixed. *)
Theorem stronger_attack_lowers_the_other_side
    (hs aws : TeamStats R) (la : LeagueAverages R) (x y : R) :
  0 <= x -> x <= y ->
  (in_range hs (with_attack_away y aws) la ->
   exists px py,
      predict_core hs (with_attack_away x aws) la = inr px /\
      predict_core hs (with_attack_away y aws) la = inr py /\
      home_team_win_probability py <= home_team_win_probability px) /\
  (in_range (with_attack_home y hs) aws la ->
   exists px py,
      predict_core (with_attack_home x hs) aws la = inr px /\
      predict_core (with_attack_home y hs) aws la = inr py /\
      away_team_win_probability py <= away_team_win_probability px).
Proof.
  intros Hx Hxy. split.
  - intros Hin. destruct (in_range_valid Hin) as [Hhs [Haws Hla]].
    destruct Hhs as [Hh1 [Hh2 _]]. destruct Haws as [_ [_ [_ Ha4]]].
    cbn [with_attack_away defense_strength_away] in Ha4.
    destruct Hla as [Hl1 Hl2].
    assert (Hk : 0 <= defense_strength_home hs * avg_away_goals la)
      by (apply Rmult_le_pos; assumption).
    apply home_percentage_antitone.
    + rewrite lambda_home_R. cbn [defense_strength_away with_attack_away].
      apply Rmult_le_pos; [apply Rmult_le_pos |]; assumption.
    + reflexivity.
    + rewrite lambda_away_R. cbn [attack_strength_away with_attack_away].
      rewrite Rmult_assoc. apply Rmult_le_pos; assumption.
    + rewrite !lambda_away_R. cbn [attack_strength_away with_attack_away].
      rewrite !Rmult_assoc. apply Rmult_le_compat_r; assumption.
  - intros Hin. destruct (in_range_valid Hin) as [Hhs [Haws Hla]].
    destruct Hhs as [_ [Hh2 _]]. cbn [with_attack_home defense_strength_home] in Hh2.
    destruct Haws as [_ [_ [Ha3 Ha4]]]. destruct Hla as [Hl1 Hl2].
    assert (Hk' : 0 <= defense_strength_away aws * avg_home_goals la)
      by (apply Rmult_le_pos; assumption).
    destruct (home_percentage_antitone
                (hs1 := mirror aws) (aws1 := mirror (with_attack_home x hs))
                (la1 := swap_averages la)
                (hs2 := mirror aws) (aws2 := mirror (with_attack_home y hs))
                (la2 := swap_averages la))
      as [qx [qy [Hqx [Hqy Hanti]]]].
    + change (0 <= lambda_away (with_attack_home x hs) aws la).
      rewrite lambda_away_with_attack, lambda_away_R.
      apply Rmult_le_pos; [apply Rmult_le_pos |]; assumption.
    + reflexivity.
    + change (0 <= lambda_home (with_attack_home x hs) aws la).
      rewrite lambda_home_with_attack, Rmult_assoc.
      apply Rmult_le_pos; assumption.
    + change (lambda_home (with_attack_home x hs) aws la
              <= lambda_home (with_attack_home y hs) aws la).
      rewrite !lambda_home_with_attack, !Rmult_assoc.
      apply Rmult_le_compat_r; assumption.
    + destruct (predict_core_exchange
                  (hs := with_attack_home x hs) (aws := aws) (la := la)
                  (hs' := mirror aws) (aws' := mirror (with_attack_home x hs))
                  (la' := swap_averages la) eq_refl eq_refl)
        as [px [px' [Hpx [Hpx' [Ex _]]]]].
      destruct (predict_core_exchange
                  (hs := with_attack_home y hs) (aws := aws) (la := la)
                  (hs' := mirror aws) (aws' := mirror (with_attack_home y hs))
                  (la' := swap_averages la) eq_refl eq_refl)
        as [py [py' [Hpy [Hpy' [Ey _]]]]].
      rewrite Hqx in Hpx'. apply inr_injective in Hpx'. subst px'.
      rewrite Hqy in Hpy'. apply inr_injective in Hpy'. subst py'.
      exists px, py. split; [exact Hpx | split; [exact Hpy |]].
      rewrite <- Ex, <- Ey. exact Hanti.
Qed.

Lemma stronger_attack_lowers_the_other_side_witness :
  (exists px py,
      predict_core scenario_home (with_attack_away 0.8 scenario_away) scenario_averages
        = inr px /\
      predict_core scenario_home (with_attack_away 1.3 scenario_away) scenario_averages
        = inr py /\
      home_team_win_probability py <= home_team_win_probability px) /\
  (exists px py,
      predict_core (with_attack_home 0.8 scenario_home) scenario_away scenario_averages
        = inr px /\
      predict_core (with_attack_home 1.3 scenario_home) scenario_away scenario_averages
        = inr py /\
      away_team_win_probability py <= away_team_win_probability px).
Proof.
  assert (Hx : 0 <= 0.8) by lra.
  assert (Hxy : 0.8 <= 1.3) by lra.
  destruct (stronger_attack_lowers_the_other_side
              scenario_home scenario_away scenario_averages Hx Hxy) as [Haway Hhome].
  split.
  - apply Haway. in_range_by_computation.
  - apply Hhome. in_range_by_computation.
Defined.
